(** * Frame-streaming inference front-end: a shallow embedding

    The development models the two Python modules of the repository,
    [utils.py] (model loader, per-frame display step, the image, video
    and webcam entry points) and [app.py] (the top-level Streamlit
    script), and proves properties of the control logic that feeds frames
    through the detection model.

    External collaborators (the detection model, OpenCV, PIL, the
    Streamlit widgets) are not part of the repository.  Their answers are
    inputs of the embedding: the record [Env] holds the behaviour of the
    library calls, the record [Inputs] the values the widgets return in
    one run of the script, and every call the properties count is logged
    as an [Event] in the trace of the run. *)

From Stdlib Require Import ZArith QArith Qabs List Ascii String Bool Lia.
From Stdlib Require Import Strings.Byte.
From stdpp Require Import base gmap strings.
Import ListNotations.

Local Open Scope string_scope.
Local Open Scope list_scope.

(** ** Data model *)

(** Python exceptions that the code can meet.  All of them derive from
    [Exception], so an [except Exception] clause catches each of them. *)
Inductive Exn : Type :=
| NameError (name : string)
| IndexError
| OSError (what : string)
| CvError (what : string)
| ModelError (what : string).

(** The result of evaluating a Python expression or statement. *)
Inductive Res (A : Type) : Type :=
| Ret (a : A)
| Raise (e : Exn).
Arguments Ret {A} a.
Arguments Raise {A} e.

Inductive ChannelOrder : Type := RGB | BGR.

(** A raster image: no property looks at pixels, so the content is an
    opaque identifier next to the geometry. *)
Record Frame : Type := mkFrame {
  fwidth : Z;
  fheight : Z;
  fchannels : ChannelOrder;
  fcontent : nat
}.

Record Box : Type := mkBox {
  xywh : Z * Z * Z * Z;
  cls : nat;
  box_conf : Q
}.

(** [res[0]] of [model.predict]: the boxes and what [plot()] renders. *)
Record DetectionResult : Type := mkResult {
  boxes : list Box;
  plot : Frame
}.

(** A model handle is a Python object: [hid] is its identity. *)
Record Handle : Type := mkHandle {
  hid : nat;
  hpath : string
}.

(** A [cv2.VideoCapture] object right after construction: whether
    [isOpened()] holds and the frames [read()] will deliver before it
    first answers [success = False].  A feed is a finite list here: a
    camera that never fails to deliver makes the Python loop run without
    end, which is outside this model. *)
Record Capture : Type := mkCapture {
  cap_opened : bool;
  cap_frames : list Frame
}.

(** An unopened capture delivers nothing. *)
Definition readable (c : Capture) : list Frame :=
  if cap_opened c then cap_frames c else [].

Inductive CapSource : Type :=
| TempFile
| Device (index : Z).

(** Texts shown by [st.error] and [st.write]. *)
Inductive Msg : Type :=
| MsgOnlyDetection              (* 当前仅实现了'检测'功能 *)
| MsgSelectModel                (* 请在侧边栏中选择模型 *)
| MsgLoadModel (path : string)  (* 无法加载模型，请检查指定的路径：{model_path} *)
| MsgOnlyImageVideo             (* 当前仅实现了'图像'和'视频'数据源 *)
| MsgVideoError (e : Exn)       (* 加载视频出错: {e} *)
| MsgNotUploaded                (* 尚未上传图片！ *)
| MsgExn (e : Exn)
| MsgBox (pos : Z * Z * Z * Z). (* 位置及大小: {box.xywh} *)

Inductive Button : Type :=
| BtnStart   (* 开始执行 *)
| BtnStop.   (* 停止运行 *)

(** The observable calls of one run, in program order. *)
Inductive Event : Type :=
| EvButton (b : Button) (pressed : bool)       (* st.button *)
| EvShowUpload                                 (* st.image / st.video of the upload *)
| EvYOLO (path : string) (ok : bool)           (* YOLO(model_path) *)
| EvOpen (src : CapSource)                     (* cv2.VideoCapture(...) *)
| EvEmpty                                      (* st.empty(): the streaming slot *)
| EvRead (success : bool)                      (* vid_cap.read() *)
| EvRelease                                    (* vid_cap.release() *)
| EvPredict (conf : Q) (image : Frame) (out : Res DetectionResult)
                                               (* model.predict(image, conf=conf) *)
| EvSlotImage (image : Frame)                  (* st_frame.image(...) *)
| EvResultImage (image : Frame)                (* st.image(res_plotted) in col2 *)
| EvExpander                                   (* st.expander *)
| EvWrite (m : Msg)                            (* st.write *)
| EvError (m : Msg).                           (* st.error *)

Definition Trace : Type := list Event.

(** ** External collaborators *)

Record Env : Type := mkEnv {
  (** [YOLO(path)]: [None] when the weights load, the exception otherwise. *)
  YOLO : string -> option Exn;
  (** [cv2.resize(image, size)]. *)
  cv2_resize : Frame -> Z * Z -> Res Frame;
  (** [model.predict(image, conf=conf)[0]]. *)
  predict : Handle -> Q -> Frame -> Res DetectionResult
}.

(** ** Process state: the [st.cache_resource] store of [load_model] *)

Record Proc : Type := mkProc {
  cache : gmap string Handle;
  next_id : nat
}.

Definition fresh_process : Proc := {| cache := ∅; next_id := 0 |}.

(** ** The effect monad: process state, event log, exceptions *)

Definition M (A : Type) : Type := Proc -> Trace * Proc * Res A.

Definition ret {A} (a : A) : M A := fun p => ([], p, Ret a).

Definition raise {A} (e : Exn) : M A := fun p => ([], p, Raise e).

Definition bind {A B} (m : M A) (f : A -> M B) : M B :=
  fun p =>
    match m p with
    | (t1, p1, Ret a) =>
        match f a p1 with
        | (t2, p2, r) => (t1 ++ t2, p2, r)
        end
    | (t1, p1, Raise e) => (t1, p1, Raise e)
    end.

(** [try: m  except Exception as e: h e] *)
Definition try_except {A} (m : M A) (h : Exn -> M A) : M A :=
  fun p =>
    match m p with
    | (t1, p1, Ret a) => (t1, p1, Ret a)
    | (t1, p1, Raise e) =>
        match h e p1 with
        | (t2, p2, r) => (t1 ++ t2, p2, r)
        end
    end.

Definition emit (e : Event) : M unit := fun p => ([e], p, Ret tt).

Definition lift {A} (r : Res A) : M A := fun p => ([], p, r).

Declare Scope py_scope.
Delimit Scope py_scope with py.
Notation "x <- m ;; k" := (bind m (fun x => k))
  (at level 100, m at next level, right associativity) : py_scope.
Notation "m ;; k" := (bind m (fun _ => k))
  (at level 100, right associativity) : py_scope.
Local Open Scope py_scope.

Definition trace_of {A} (x : Trace * Proc * Res A) : Trace := fst (fst x).
Definition proc_of {A} (x : Trace * Proc * Res A) : Proc := snd (fst x).
Definition result_of {A} (x : Trace * Proc * Res A) : Res A := snd x.

(** ** utils.py *)

(** Python's [int] on a number: truncation towards zero. *)
Definition py_int (x : Q) : Z := Z.quot (Qnum x) (Zpos (Qden x)).

(** [int(720 * (9 / 16))] *)
Definition standard_height : Z := py_int (720 * (9 / 16)).

Definition standard_size : Z * Z := (720, standard_height)%Z.

Definition _display_detected_frames
    (env : Env) (conf : Q) (model : Handle) (image : Frame) : M unit :=
  image <- lift (cv2_resize env image standard_size) ;;
  let out := predict env model conf image in
  emit (EvPredict conf image out) ;;
  res <- lift out ;;
  let res_plotted := plot res in
  emit (EvSlotImage res_plotted).

(** [@st.cache_resource def load_model(model_path)]: the decorator keeps
    one entry per argument value; a call that raises stores nothing. *)
Definition load_model (env : Env) (model_path : string) : M Handle :=
  fun p =>
    match cache p !! model_path with
    | Some model => ([], p, Ret model)
    | None =>
        match YOLO env model_path with
        | Some e => ([EvYOLO model_path false], p, Raise e)
        | None =>
            let model := {| hid := next_id p; hpath := model_path |} in
            ([EvYOLO model_path true],
             {| cache := <[model_path := model]> (cache p);
                next_id := S (next_id p) |},
             Ret model)
        end
    end.

(** How a frame loop was left. *)
Inductive LoopExit : Type :=
| NotStarted    (* no upload, or the start button was not pressed *)
| ExitCond      (* the [while] condition was false *)
| ExitBreak     (* a read failed: [release()] then [break] *)
| ExitExcept.   (* the [except Exception] handler ran *)

(** [while vid_cap.isOpened(): ...] of [infer_uploaded_video]. *)
Fixpoint video_loop (env : Env) (conf : Q) (model : Handle)
    (opened : bool) (frames : list Frame) : M LoopExit :=
  if opened then
    match frames with
    | image :: rest =>
        emit (EvRead true) ;;
        _display_detected_frames env conf model image ;;
        video_loop env conf model opened rest
    | [] =>
        emit (EvRead false) ;;
        emit EvRelease ;;
        ret ExitBreak
    end
  else ret ExitCond.

(** [while not flag: ...] of [infer_uploaded_webcam]. *)
Fixpoint webcam_loop (env : Env) (conf : Q) (model : Handle)
    (flag : bool) (frames : list Frame) : M LoopExit :=
  if negb flag then
    match frames with
    | image :: rest =>
        emit (EvRead true) ;;
        _display_detected_frames env conf model image ;;
        webcam_loop env conf model flag rest
    | [] =>
        emit (EvRead false) ;;
        emit EvRelease ;;
        ret ExitBreak
    end
  else ret ExitCond.

(** What the user's browser and the operating system answer in one run of
    the script. *)

(** An uploaded image file and what [Image.open] makes of it. *)
Record UploadedImage : Type := mkUploadedImage {
  image_open : Res Frame
}.

(** An uploaded video file: whether copying it to a temporary file works
    ([tempfile.NamedTemporaryFile()], [tfile.write(source_video.read())])
    and the capture object [cv2.VideoCapture(tfile.name)] builds from it.
    The constructor does not raise on a file it cannot decode: it returns
    a capture whose [isOpened()] is false.  The copy is not flushed before
    the decoder opens it by name, so [decoder] is what the decoder makes of
    the file as it finds it on disk, which may be less than the upload. *)
Record UploadedVideo : Type := mkUploadedVideo {
  materialize : option Exn;
  decoder : Capture
}.

Record Inputs : Type := mkInputs {
  background_image : Res string;       (* get_image_base64("back_images/image2.jpg") *)
  task_type : string;                  (* st.sidebar.selectbox("选择任务类型", ...) *)
  model_choice : option string;        (* st.sidebar.selectbox("选择模型", ...) *)
  slider : Z;                          (* st.sidebar.slider("选择模型置信度", 30, 100, 50) *)
  source_choice : option string;       (* st.sidebar.selectbox("选择数据源", ...) *)
  image_file : option UploadedImage;   (* st.sidebar.file_uploader("选择一张图片...") *)
  video_file : option UploadedVideo;   (* st.sidebar.file_uploader("选择一个视频...") *)
  start_pressed : bool;                (* st.button("开始执行") *)
  stop_pressed : bool;                 (* st.button("停止运行") *)
  camera : Capture                     (* cv2.VideoCapture(0) *)
}.

Definition st_button (b : Button) (pressed : bool) : M bool :=
  emit (EvButton b pressed) ;; ret pressed.

(** Reading a Python variable that may never have been assigned. *)
Definition lookup_var {A} (name : string) (v : option A) : M A :=
  match v with
  | Some a => ret a
  | None => raise (NameError name)
  end.

Definition raise_if (e : option Exn) : M unit :=
  match e with
  | Some ex => raise ex
  | None => ret tt
  end.

(** [for x in l: body x] *)
Fixpoint for_each {A} (l : list A) (body : A -> M unit) : M unit :=
  match l with
  | [] => ret tt
  | x :: rest => body x ;; for_each rest body
  end.

(** [a[:, :, ::-1]] *)
Definition reverse_channels (f : Frame) : Frame :=
  {| fwidth := fwidth f; fheight := fheight f;
     fchannels := match fchannels f with RGB => BGR | BGR => RGB end;
     fcontent := fcontent f |}.

(** The display calls of Streamlit ([st.image], [st.write], ...) and
    [plot()] are taken to return: the exceptions followed here are those of
    [Image.open], [cv2.resize], [model.predict], the temporary file and the
    loader. *)
Definition infer_uploaded_image
    (env : Env) (ui : Inputs) (conf : Q) (model : Handle) : M unit :=
  let source_img := image_file ui in
  uploaded_image <-
    match source_img with
    | Some up =>
        im <- lift (image_open up) ;;
        emit EvShowUpload ;;
        ret (Some im)
    | None => ret None
    end ;;
  match source_img with
  | Some _ =>
      pressed <- st_button BtnStart (start_pressed ui) ;;
      if pressed then
        uploaded_image <- lookup_var "uploaded_image" uploaded_image ;;
        let out := predict env model conf uploaded_image in
        emit (EvPredict conf uploaded_image out) ;;
        res <- lift out ;;
        let boxes := boxes res in
        let res_plotted := reverse_channels (plot res) in
        emit (EvResultImage res_plotted) ;;
        try_except
          (emit EvExpander ;;
           for_each boxes (fun box => emit (EvWrite (MsgBox (xywh box)))))
          (fun ex =>
             emit (EvWrite MsgNotUploaded) ;;
             emit (EvWrite (MsgExn ex)))
      else ret tt
  | None => ret tt
  end.

(** The Python function returns [None]; the embedding returns the way the
    frame loop was left, which the state-machine properties speak about. *)
Definition infer_uploaded_video
    (env : Env) (ui : Inputs) (conf : Q) (model : Handle) : M LoopExit :=
  let source_video := video_file ui in
  match source_video with
  | Some _ => emit EvShowUpload
  | None => ret tt
  end ;;
  match source_video with
  | Some up =>
      pressed <- st_button BtnStart (start_pressed ui) ;;
      if pressed then
        try_except
          (raise_if (materialize up) ;;
           emit (EvOpen TempFile) ;;
           let vid_cap := decoder up in
           emit EvEmpty ;;
           video_loop env conf model (cap_opened vid_cap) (cap_frames vid_cap))
          (fun e =>
             emit (EvError (MsgVideoError e)) ;;
             ret ExitExcept)
      else ret NotStarted
  | None => ret NotStarted
  end.

Definition infer_uploaded_webcam
    (env : Env) (ui : Inputs) (conf : Q) (model : Handle) : M LoopExit :=
  try_except
    (flag <- st_button BtnStop (stop_pressed ui) ;;
     emit (EvOpen (Device 0)) ;;
     let vid_cap := camera ui in
     emit EvEmpty ;;
     webcam_loop env conf model flag (readable vid_cap))
    (fun e =>
       emit (EvError (MsgVideoError e)) ;;
       ret ExitExcept).

(** ** app.py *)

(** [config.py] is not part of the sources at hand: its three constants
    are parameters. *)
Record Config : Type := mkConfig {
  DETECTION_MODEL_LIST : list string;
  DETECTION_MODEL_DIR : string;
  SOURCES_LIST : list string
}.

(** [l[i]] *)
Definition index {A} (l : list A) (i : nat) : M A :=
  match nth_error l i with
  | Some a => ret a
  | None => raise IndexError
  end.

(** Truth value of a selectbox answer: [None] and the empty string are
    false. *)
Definition truthy (s : option string) : bool :=
  match s with
  | Some v => negb (String.eqb v EmptyString)
  | None => false
  end.

(** [x == y] where [x] is a selectbox answer and [y] a string. *)
Definition py_eq (x : option string) (y : string) : bool :=
  match x with
  | Some v => String.eqb v y
  | None => false
  end.

(** [Path(config.DETECTION_MODEL_DIR, str(model_type))] *)
Definition Path (dir name : string) : string := dir ++ "/" ++ name.

Definition py_str (s : option string) : string :=
  match s with
  | Some v => v
  | None => "None"
  end.

(** Python floats are IEEE 754 binary64 numbers.  [round_binary64 x] is
    the binary64 number nearest to the rational [x], ties to even: a
    significand of 53 bits, scaled by a power of two.  The exponent range
    is not modelled (no overflow, no subnormals), which makes no
    difference between 2^-1022 and 2^1023, far around every value met
    here. *)
Definition pow2 (k : Z) : Z := (2 ^ Z.max 0 k)%Z.

(** The integer part of the binary logarithm of [n / d]. *)
Definition floor_log2 (n d : positive) : Z :=
  let k := (Z.log2 (Zpos n) - Z.log2 (Zpos d))%Z in
  if (Zpos d * pow2 k <=? Zpos n * pow2 (- k))%Z then k else (k - 1)%Z.

(** [n / d] rounded to the nearest integer, ties to even. *)
Definition round_half_even (n d : Z) : Z :=
  let q := (n / d)%Z in
  let r := (n mod d)%Z in
  if (2 * r <? d)%Z then q
  else if (d <? 2 * r)%Z then (q + 1)%Z
  else if Z.even q then q else (q + 1)%Z.

Definition round_pos (n d : positive) : Q :=
  let e := (floor_log2 n d - 52)%Z in
  let m := round_half_even (Zpos n * pow2 (- e)) (Zpos d * pow2 e) in
  (inject_Z (m * pow2 e) / inject_Z (pow2 (- e)))%Q.

Definition round_binary64 (x : Q) : Q :=
  match Qnum x with
  | Z0 => 0%Q
  | Zpos n => round_pos n (Qden x)
  | Zneg n => (- round_pos n (Qden x))%Q
  end.

(** [float(n)] for an integer [n] *)
Definition py_float (n : Z) : Q := round_binary64 (inject_Z n).

(** [x / y] on floats: the quotient, correctly rounded. *)
Definition float_div (x y : Q) : Q := round_binary64 (x / y).

(** The bounds and the default handed to the slider:
    [st.sidebar.slider("选择模型置信度", 30, 100, 50)].  The widget answers
    an integer between its bounds. *)
Definition slider_min : Z := 30.
Definition slider_max : Z := 100.
Definition slider_default : Z := 50.

Definition slider_in_range (ui : Inputs) : Prop :=
  (slider_min <= slider ui <= slider_max)%Z.

(** [float(s) / 100] *)
Definition confidence_of (s : Z) : Q := float_div (py_float s) (py_float 100).

(** [float(st.sidebar.slider(...)) / 100] *)
Definition confidence (ui : Inputs) : Q := confidence_of (slider ui).

Definition app (cfg : Config) (env : Env) (ui : Inputs) : M unit :=
  _ <- lift (background_image ui) ;;
  let task_type := task_type ui in
  model_type <-
    (if String.eqb task_type "检测"
     then ret (model_choice ui)
     else emit (EvError MsgOnlyDetection) ;; ret None) ;;
  let confidence := confidence ui in
  model_path <-
    (if truthy model_type
     then ret (Path (DETECTION_MODEL_DIR cfg) (py_str model_type))
     else emit (EvError MsgSelectModel) ;; ret EmptyString) ;;
  model <-
    try_except
      (model <- load_model env model_path ;; ret (Some model))
      (fun e => emit (EvError (MsgLoadModel model_path)) ;; ret None) ;;
  let source_selectbox := source_choice ui in
  s0 <- index (SOURCES_LIST cfg) 0 ;;
  if py_eq source_selectbox s0 then
    model <- lookup_var "model" model ;;
    infer_uploaded_image env ui confidence model
  else
    s1 <- index (SOURCES_LIST cfg) 1 ;;
    if py_eq source_selectbox s1 then
      model <- lookup_var "model" model ;;
      _ <- infer_uploaded_video env ui confidence model ;;
      ret tt
    else
      s2 <- index (SOURCES_LIST cfg) 2 ;;
      if py_eq source_selectbox s2 then
        model <- lookup_var "model" model ;;
        _ <- infer_uploaded_webcam env ui confidence model ;;
        ret tt
      else
        emit (EvError MsgOnlyImageVideo).

(** ** Observing a run *)

(** The frame-source states of the design and how an exit of the loop
    reads as one of them. *)
Inductive SourceState : Type := IDLE | RUNNING | STOPPED | EXHAUSTED | ERROR.

Definition final_state (x : LoopExit) : SourceState :=
  match x with
  | NotStarted => IDLE
  | ExitCond => STOPPED
  | ExitBreak => EXHAUSTED
  | ExitExcept => ERROR
  end.

Definition is_predict (e : Event) : bool :=
  match e with EvPredict _ _ _ => true | _ => false end.

Definition is_slot_image (e : Event) : bool :=
  match e with EvSlotImage _ => true | _ => false end.

Definition is_result_display (e : Event) : bool :=
  match e with EvSlotImage _ | EvResultImage _ => true | _ => false end.

Definition is_empty (e : Event) : bool :=
  match e with EvEmpty => true | _ => false end.

Definition is_open (e : Event) : bool :=
  match e with EvOpen _ => true | _ => false end.

Definition is_release (e : Event) : bool :=
  match e with EvRelease => true | _ => false end.

Definition is_error (e : Event) : bool :=
  match e with EvError _ => true | _ => false end.

Definition is_load_error (e : Event) : bool :=
  match e with EvError (MsgLoadModel _) => true | _ => false end.

Definition is_disk_load (path : string) (e : Event) : bool :=
  match e with EvYOLO q true => String.eqb q path | _ => false end.

Definition count (P : Event -> bool) (t : Trace) : nat :=
  length (List.filter P t).

(** What one successfully read frame adds to the log: the read, the
    inference call on the resized frame, the update of the slot. *)
Definition frame_steps (env : Env) (conf : Q) (model : Handle)
    (image : Frame) : Trace :=
  match cv2_resize env image standard_size with
  | Ret image' =>
      match predict env model conf image' with
      | Ret res =>
          [EvRead true; EvPredict conf image' (Ret res); EvSlotImage (plot res)]
      | Raise e => [EvRead true; EvPredict conf image' (Raise e)]
      end
  | Raise _ => [EvRead true]
  end.

(** The frame passes [cv2.resize] and [model.predict] without exception. *)
Definition processes (env : Env) (conf : Q) (model : Handle)
    (image : Frame) : bool :=
  match cv2_resize env image standard_size with
  | Ret image' =>
      match predict env model conf image' with
      | Ret _ => true
      | Raise _ => false
      end
  | Raise _ => false
  end.

(** All events of a computation satisfy [Q], whatever the process state. *)
Definition all_events {A} (Q : Event -> Prop) (m : M A) : Prop :=
  forall p, Forall Q (trace_of (m p)).


(** An event agrees with threshold [t] and box property [B]: an inference
    call passes [t], the boxes of its result satisfy [B], and a written
    box detail is the position of a box that satisfies [B]. *)
Definition sound_event (t : Q) (B : Box -> Prop) (e : Event) : Prop :=
  match e with
  | EvPredict c _ out =>
      c = t /\
      match out with
      | Ret res => Forall B (boxes res)
      | Raise _ => True
      end
  | EvWrite (MsgBox pos) => exists b, xywh b = pos /\ B b
  | _ => True
  end.

Definition is_start_button (e : Event) : bool :=
  match e with EvButton BtnStart _ => true | _ => false end.

(** The path the script hands to [load_model]. *)
Definition model_path_of (cfg : Config) (ui : Inputs) : string :=
  if String.eqb (task_type ui) "检测" && truthy (model_choice ui)
  then Path (DETECTION_MODEL_DIR cfg) (py_str (model_choice ui))
  else EmptyString.

(** A series of [load_model] calls in one process, each under the disk
    state of its own moment; an exception of one call does not stop the
    next (each run of the script wraps its call in [try]). *)
Fixpoint load_calls (calls : list (Env * string)) (p : Proc) : Trace * Proc :=
  match calls with
  | [] => ([], p)
  | (env, path) :: rest =>
      match load_model env path p with
      | (t, p1, _) =>
          match load_calls rest p1 with
          | (t', p2) => (t ++ t', p2)
          end
      end
  end.

(** The computation keeps every cache entry it finds. *)
Definition keeps_cache {A} (m : M A) : Prop :=
  forall p k h, cache p !! k = Some h -> cache (proc_of (m p)) !! k = Some h.

(** The number of [release()] calls that goes with an exit of a loop. *)
Definition releases_of (r : Res LoopExit) : nat :=
  match r with
  | Ret ExitBreak => 1
  | _ => 0
  end.

(** ** Parts of the script and of a session *)

Definition is_yolo (e : Event) : bool :=
  match e with EvYOLO _ _ => true | _ => false end.

Definition is_read (ok : bool) (e : Event) : bool :=
  match e with EvRead b => Bool.eqb b ok | _ => false end.

Definition is_write (e : Event) : bool :=
  match e with EvWrite _ => true | _ => false end.

(** The computation leaves the process state as it found it. *)
Definition keeps_proc {A} (m : M A) : Prop :=
  forall p, proc_of (m p) = p.

(** What the script reports before it reaches [load_model]. *)
Definition prelude_trace (ui : Inputs) : Trace :=
  (if String.eqb (task_type ui) "检测" then [] else [EvError MsgOnlyDetection])
  ++ (if String.eqb (task_type ui) "检测" && truthy (model_choice ui)
      then [] else [EvError MsgSelectModel]).

(** Lines 109-112 of [app.py]: the guarded call of [load_model]. *)
Definition load_step (env : Env) (model_path : string) : M (option Handle) :=
  try_except
    (model <- load_model env model_path ;; ret (Some model))
    (fun e => emit (EvError (MsgLoadModel model_path)) ;; ret None).

(** Lines 121-128 of [app.py]: the choice of the entry point. *)
Definition dispatch (cfg : Config) (env : Env) (ui : Inputs)
    (model : option Handle) : M unit :=
  let source_selectbox := source_choice ui in
  s0 <- index (SOURCES_LIST cfg) 0 ;;
  if py_eq source_selectbox s0 then
    model <- lookup_var "model" model ;;
    infer_uploaded_image env ui (confidence ui) model
  else
    s1 <- index (SOURCES_LIST cfg) 1 ;;
    if py_eq source_selectbox s1 then
      model <- lookup_var "model" model ;;
      _ <- infer_uploaded_video env ui (confidence ui) model ;;
      ret tt
    else
      s2 <- index (SOURCES_LIST cfg) 2 ;;
      if py_eq source_selectbox s2 then
        model <- lookup_var "model" model ;;
        _ <- infer_uploaded_webcam env ui (confidence ui) model ;;
        ret tt
      else
        emit (EvError MsgOnlyImageVideo).

(** The script from [load_model] on. *)
Definition app_body (cfg : Config) (env : Env) (ui : Inputs) : M unit :=
  bind (load_step env (model_path_of cfg ui)) (dispatch cfg env ui).

(** Streamlit runs the script again on every interaction, in the same
    process: a session is a series of runs, each with the widget answers
    and the world of its moment.  An exception ends one run, not the
    session. *)
Fixpoint session (cfg : Config) (runs : list (Env * Inputs)) (p : Proc)
    : Trace * Proc :=
  match runs with
  | [] => ([], p)
  | (env, ui) :: rest =>
      match app cfg env ui p with
      | (t, p1, _) =>
          match session cfg rest p1 with
          | (t', p2) => (t ++ t', p2)
          end
      end
  end.

(** Every cached handle remembers the path it is stored under, carries an
    identity below the next fresh one, and shares it with no other entry. *)
Definition wf_proc (p : Proc) : Prop :=
  (forall k h, cache p !! k = Some h -> hpath h = k /\ hid h < next_id p) /\
  (forall k1 k2 h1 h2,
      cache p !! k1 = Some h1 -> cache p !! k2 = Some h2 ->
      hid h1 = hid h2 -> k1 = k2).

(** The [load_model] calls a session makes: one per run that gets past
    the background image. *)
Fixpoint calls_of (cfg : Config) (runs : list (Env * Inputs))
    : list (Env * string) :=
  match runs with
  | [] => []
  | (env, ui) :: rest =>
      match background_image ui with
      | Ret _ => (env, model_path_of cfg ui) :: calls_of cfg rest
      | Raise _ => calls_of cfg rest
      end
  end.

(** The events the entry points and the dispatch can log: everything but
    disk loads and the reports of the script's prelude and load step. *)
Definition after_load_event (e : Event) : bool :=
  match e with
  | EvYOLO _ _ => false
  | EvError (MsgLoadModel _) => false
  | EvError MsgOnlyDetection => false
  | EvError MsgSelectModel => false
  | _ => true
  end.

(** The events a frame loop logs. *)
Definition loop_event (e : Event) : bool :=
  match e with
  | EvRead _ | EvRelease | EvPredict _ _ _ | EvSlotImage _ => true
  | _ => false
  end.


(** The exception, if any, that processing one frame ends with. *)
Definition failure_of (env : Env) (conf : Q) (model : Handle)
    (image : Frame) : option Exn :=
  match cv2_resize env image standard_size with
  | Ret image' =>
      match predict env model conf image' with
      | Ret _ => None
      | Raise e => Some e
      end
  | Raise e => Some e
  end.

(** The counts of a trace are in the order of the pipeline: no more slot
    updates than inference calls, no more inference calls than frames
    read, no more frames read than [n], at most one failed read. *)
Definition pipeline_ordered (n : nat) (t : Trace) : Prop :=
  count is_slot_image t <= count is_predict t /\
  count is_predict t <= count (is_read true) t /\
  count (is_read true) t <= n /\
  count (is_read false) t <= 1.

(** Which of the configured sources the dispatch settles on: the first
    of the first three that equals the selection; [Ret None] when none of
    the three does; [IndexError] when the list ends before a match. *)
Definition selected_source (cfg : Config) (ui : Inputs) : Res (option nat) :=
  match nth_error (SOURCES_LIST cfg) 0 with
  | None => Raise IndexError
  | Some s0 =>
      if py_eq (source_choice ui) s0 then Ret (Some 0)
      else
        match nth_error (SOURCES_LIST cfg) 1 with
        | None => Raise IndexError
        | Some s1 =>
            if py_eq (source_choice ui) s1 then Ret (Some 1)
            else
              match nth_error (SOURCES_LIST cfg) 2 with
              | None => Raise IndexError
              | Some s2 =>
                  if py_eq (source_choice ui) s2 then Ret (Some 2)
                  else Ret None
              end
        end
  end.

(** The entry point behind each position of the source list. *)
Definition entry_point (env : Env) (ui : Inputs) (model : Handle)
    (i : nat) : M unit :=
  match i with
  | 0 => infer_uploaded_image env ui (confidence ui) model
  | 1 => _ <- infer_uploaded_video env ui (confidence ui) model ;; ret tt
  | _ => _ <- infer_uploaded_webcam env ui (confidence ui) model ;; ret tt
  end.

(** ** The background image: [get_image_base64] *)

(** Six bits, most significant first. *)
Definition sextet : Type := (bool * bool * bool * bool * bool * bool)%type.

Definition bit (b : bool) : nat := if b then 1 else 0.

Definition sextet_value (s : sextet) : nat :=
  let '(b5, b4, b3, b2, b1, b0) := s in
  32 * bit b5 + 16 * bit b4 + 8 * bit b3 + 4 * bit b2 + 2 * bit b1 + bit b0.

Definition sextet_of_nat (n : nat) : sextet :=
  (Nat.testbit n 5, Nat.testbit n 4, Nat.testbit n 3,
   Nat.testbit n 2, Nat.testbit n 1, Nat.testbit n 0).

Definition b64_alphabet : string :=
  "ABCDEFGHIJKLMNOPQRSTUVWXYZabcdefghijklmnopqrstuvwxyz0123456789+/".

Definition b64_pad : ascii := "="%char.

Definition b64_char (s : sextet) : ascii :=
  match String.get (sextet_value s) b64_alphabet with
  | Some c => c
  | None => b64_pad
  end.

(** The 24 bits of three bytes as four sextets. *)
Definition group3 (a b c : Byte.byte) : sextet * sextet * sextet * sextet :=
  let '(a0, (a1, (a2, (a3, (a4, (a5, (a6, a7))))))) := Byte.to_bits a in
  let '(b0, (b1, (b2, (b3, (b4, (b5, (b6, b7))))))) := Byte.to_bits b in
  let '(c0, (c1, (c2, (c3, (c4, (c5, (c6, c7))))))) := Byte.to_bits c in
  ((a7, a6, a5, a4, a3, a2), (a1, a0, b7, b6, b5, b4),
   (b3, b2, b1, b0, c7, c6), (c5, c4, c3, c2, c1, c0)).

(** [base64.b64encode(data).decode()]: the standard alphabet of RFC 4648
    with padding, three bytes to four characters. *)
Fixpoint b64encode (data : list Byte.byte) : string :=
  match data with
  | [] => EmptyString
  | [a] =>
      let '(s0, s1, _, _) := group3 a Byte.x00 Byte.x00 in
      String (b64_char s0) (String (b64_char s1)
        (String b64_pad (String b64_pad EmptyString)))
  | [a; b] =>
      let '(s0, s1, s2, _) := group3 a b Byte.x00 in
      String (b64_char s0) (String (b64_char s1)
        (String (b64_char s2) (String b64_pad EmptyString)))
  | a :: b :: c :: rest =>
      let '(s0, s1, s2, s3) := group3 a b c in
      String (b64_char s0) (String (b64_char s1)
        (String (b64_char s2) (String (b64_char s3) (b64encode rest))))
  end.

(** [get_image_base64(image_path)]; [fs] is what
    [open(image_path, "rb").read()] yields. *)
Definition get_image_base64 (fs : string -> Res (list Byte.byte))
    (image_path : string) : Res string :=
  match fs image_path with
  | Ret data => Ret (b64encode data)
  | Raise e => Raise e
  end.

(** A reference decoder, as the browser applies to the data URL. *)
Fixpoint index_of (c : ascii) (s : string) : option nat :=
  match s with
  | EmptyString => None
  | String d rest =>
      if Ascii.eqb c d then Some 0 else option_map S (index_of c rest)
  end.

Definition b64_sextet (c : ascii) : option sextet :=
  option_map sextet_of_nat (index_of c b64_alphabet).

Definition byte1 (s0 s1 : sextet) : Byte.byte :=
  let '(a7, a6, a5, a4, a3, a2) := s0 in
  let '(a1, a0, _, _, _, _) := s1 in
  Byte.of_bits (a0, (a1, (a2, (a3, (a4, (a5, (a6, a7))))))).

Definition byte2 (s1 s2 : sextet) : Byte.byte :=
  let '(_, _, b7, b6, b5, b4) := s1 in
  let '(b3, b2, b1, b0, _, _) := s2 in
  Byte.of_bits (b0, (b1, (b2, (b3, (b4, (b5, (b6, b7))))))).

Definition byte3 (s2 s3 : sextet) : Byte.byte :=
  let '(_, _, _, _, c7, c6) := s2 in
  let '(c5, c4, c3, c2, c1, c0) := s3 in
  Byte.of_bits (c0, (c1, (c2, (c3, (c4, (c5, (c6, c7))))))).

Fixpoint b64decode (s : string) : option (list Byte.byte) :=
  match s with
  | EmptyString => Some []
  | String c0 (String c1 (String c2 (String c3 rest))) =>
      match b64_sextet c0, b64_sextet c1 with
      | Some s0, Some s1 =>
          if Ascii.eqb c2 b64_pad then
            match rest with
            | EmptyString =>
                if Ascii.eqb c3 b64_pad then Some [byte1 s0 s1] else None
            | _ => None
            end
          else
            match b64_sextet c2 with
            | Some s2 =>
                if Ascii.eqb c3 b64_pad then
                  match rest with
                  | EmptyString => Some [byte1 s0 s1; byte2 s1 s2]
                  | _ => None
                  end
                else
                  match b64_sextet c3 with
                  | Some s3 =>
                      option_map
                        (fun l => byte1 s0 s1 :: byte2 s1 s2 :: byte3 s2 s3 :: l)
                        (b64decode rest)
                  | None => None
                  end
            | None => None
            end
      | _, _ => None
      end
  | _ => None
  end.

(** The characters that may occur in an encoding. *)
Definition b64_safe (c : ascii) : bool :=
  match index_of c b64_alphabet with
  | Some _ => true
  | None => Ascii.eqb c b64_pad
  end.

(** ** What a run does with the threshold *)




(** The slider answers in range for which the float threshold is as
    stated: nearest double of s/100, within 2^-54 of it, between the
    doubles written 0.30 and 1.00. *)
Definition confidence_checked (s : Z) : bool :=
  Qeq_bool (confidence_of s) (round_binary64 (s # 100))
  && Qle_bool (Qabs (confidence_of s - (s # 100))) (1 # 18014398509481984)
  && Qle_bool (round_binary64 (3 # 10)) (confidence_of s)
  && Qle_bool (confidence_of s) 1.

Definition slider_answers : list Z :=
  map (fun k => (slider_min + Z.of_nat k)%Z) (seq 0 71).

(** ** Sample data *)

(** A stub model that finds nothing, and a resize that always works. *)
Definition stub_env : Env :=
  {| YOLO := fun _ => None;
     cv2_resize := fun f size =>
       Ret {| fwidth := fst size; fheight := snd size;
              fchannels := fchannels f; fcontent := fcontent f |};
     predict := fun _ _ f => Ret {| boxes := []; plot := f |} |}.

Definition hd_frame (n : nat) : Frame :=
  {| fwidth := 1280; fheight := 720; fchannels := BGR; fcontent := n |}.

Definition ten_frames : list Frame := map hd_frame (seq 0 10).

Definition sample_model : Handle := {| hid := 0; hpath := "weights/yolov8n.pt" |}.

Definition no_capture : Capture := {| cap_opened := false; cap_frames := [] |}.

Definition base_inputs : Inputs :=
  {| background_image := Ret "aGVsbG8=";
     task_type := "检测";
     model_choice := Some "yolov8n.pt";
     slider := 50;
     source_choice := Some "video";
     image_file := None;
     video_file := None;
     start_pressed := false;
     stop_pressed := false;
     camera := no_capture |}.

Definition with_video (ui : Inputs) (v : UploadedVideo) (start : bool) : Inputs :=
  {| background_image := background_image ui;
     task_type := task_type ui;
     model_choice := model_choice ui;
     slider := slider ui;
     source_choice := source_choice ui;
     image_file := image_file ui;
     video_file := Some v;
     start_pressed := start;
     stop_pressed := stop_pressed ui;
     camera := camera ui |}.

Definition ten_frame_video : UploadedVideo :=
  {| materialize := None;
     decoder := {| cap_opened := true; cap_frames := ten_frames |} |}.

Definition with_image (ui : Inputs) (i : UploadedImage) (start : bool) : Inputs :=
  {| background_image := background_image ui;
     task_type := task_type ui;
     model_choice := model_choice ui;
     slider := slider ui;
     source_choice := source_choice ui;
     image_file := Some i;
     video_file := video_file ui;
     start_pressed := start;
     stop_pressed := stop_pressed ui;
     camera := camera ui |}.

Definition with_camera (ui : Inputs) (c : Capture) (stop : bool) : Inputs :=
  {| background_image := background_image ui;
     task_type := task_type ui;
     model_choice := model_choice ui;
     slider := slider ui;
     source_choice := source_choice ui;
     image_file := image_file ui;
     video_file := video_file ui;
     start_pressed := start_pressed ui;
     stop_pressed := stop;
     camera := c |}.

Definition with_source (ui : Inputs) (s : string) : Inputs :=
  {| background_image := background_image ui;
     task_type := task_type ui;
     model_choice := model_choice ui;
     slider := slider ui;
     source_choice := Some s;
     image_file := image_file ui;
     video_file := video_file ui;
     start_pressed := start_pressed ui;
     stop_pressed := stop_pressed ui;
     camera := camera ui |}.

Definition sample_image : UploadedImage :=
  {| image_open := Ret {| fwidth := 640; fheight := 480;
                          fchannels := RGB; fcontent := 7 |} |}.

(** Raw candidates of a model and a [predict] that filters them by the
    threshold, as the detection library does. *)
Definition candidates : list Box :=
  [ {| xywh := (10, 20, 30, 40)%Z; cls := 0; box_conf := 9 # 10 |};
    {| xywh := (50, 60, 20, 20)%Z; cls := 0; box_conf := 2 # 10 |};
    {| xywh := (5, 5, 80, 40)%Z; cls := 0; box_conf := 55 # 100 |} ].

Definition filtering_env : Env :=
  {| YOLO := fun _ => None;
     cv2_resize := cv2_resize stub_env;
     predict := fun _ c f =>
       Ret {| boxes := List.filter (fun b => Qle_bool c (box_conf b)) candidates;
              plot := f |} |}.

(** A model that rejects every input. *)
Definition raising_env : Env :=
  {| YOLO := fun _ => None;
     cv2_resize := cv2_resize stub_env;
     predict := fun _ _ _ => Raise (ModelError "malformed input") |}.

(** Weights that cannot be loaded. *)
Definition missing_weights_env : Env :=
  {| YOLO := fun _ => Some (OSError "No such file or directory");
     cv2_resize := cv2_resize stub_env;
     predict := predict stub_env |}.

Definition sample_config : Config :=
  {| DETECTION_MODEL_LIST := ["yolov8n.pt"];
     DETECTION_MODEL_DIR := "weights";
     SOURCES_LIST := ["image"; "video"; "webcam"] |}.

Definition one_frame_video : UploadedVideo :=
  {| materialize := None;
     decoder := {| cap_opened := true; cap_frames := [hd_frame 0] |} |}.

(** A file the decoder cannot open. *)
Definition undecodable_video : UploadedVideo :=
  {| materialize := None; decoder := no_capture |}.

Definition live_camera : Capture :=
  {| cap_opened := true; cap_frames := ten_frames |}.

(** A model that cannot cope with the frame whose content is 2. *)
Definition third_frame_fails_env : Env :=
  {| YOLO := fun _ => None;
     cv2_resize := cv2_resize stub_env;
     predict := fun _ _ f =>
       if Nat.eqb (fcontent f) 2
       then Raise (ModelError "malformed input")
       else Ret {| boxes := []; plot := f |} |}.

Definition four_frames : list Frame := map hd_frame (seq 0 4).

Definition four_frame_video : UploadedVideo :=
  {| materialize := None;
     decoder := {| cap_opened := true; cap_frames := four_frames |} |}.

Definition four_frame_camera : Capture :=
  {| cap_opened := true; cap_frames := four_frames |}.

(** An upload for which no temporary file can be written. *)
Definition unwritable_video : UploadedVideo :=
  {| materialize := Some (OSError "No space left on device");
     decoder := no_capture |}.

(** A file that is no picture. *)
Definition broken_image : UploadedImage :=
  {| image_open := Raise (OSError "cannot identify image file") |}.

Definition with_model (ui : Inputs) (m : option string) : Inputs :=
  {| background_image := background_image ui;
     task_type := task_type ui;
     model_choice := m;
     slider := slider ui;
     source_choice := source_choice ui;
     image_file := image_file ui;
     video_file := video_file ui;
     start_pressed := start_pressed ui;
     stop_pressed := stop_pressed ui;
     camera := camera ui |}.

Definition with_background (ui : Inputs) (bg : Res string) : Inputs :=
  {| background_image := bg;
     task_type := task_type ui;
     model_choice := model_choice ui;
     slider := slider ui;
     source_choice := source_choice ui;
     image_file := image_file ui;
     video_file := video_file ui;
     start_pressed := start_pressed ui;
     stop_pressed := stop_pressed ui;
     camera := camera ui |}.

Definition image_only_config : Config :=
  {| DETECTION_MODEL_LIST := ["yolov8n.pt"];
     DETECTION_MODEL_DIR := "weights";
     SOURCES_LIST := ["image"] |}.

Definition background_path : string := "back_images/image2.jpg".

(** A file system that holds a three-byte file at every path, and one
    that holds nothing. *)
Definition sample_fs (path : string) : Res (list Byte.byte) :=
  Ret [Byte.x4d; Byte.x61; Byte.x6e].

Definition empty_fs (path : string) : Res (list Byte.byte) :=
  Raise (OSError "No such file or directory").

Definition with_slider (ui : Inputs) (s : Z) : Inputs :=
  {| background_image := background_image ui;
     task_type := task_type ui;
     model_choice := model_choice ui;
     slider := s;
     source_choice := source_choice ui;
     image_file := image_file ui;
     video_file := video_file ui;
     start_pressed := start_pressed ui;
     stop_pressed := stop_pressed ui;
     camera := camera ui |}.



(** ** Basic facts *)

Lemma standard_height_405 : standard_height = 405%Z.
Proof. reflexivity. Qed.

Lemma count_app (P : Event -> bool) (t1 t2 : Trace) :
  count P (t1 ++ t2) = count P t1 + count P t2.
Proof.
  unfold count. rewrite List.filter_app. apply List.length_app.
Qed.

Lemma count_cons (P : Event -> bool) (e : Event) (t : Trace) :
  count P (e :: t) = (if P e then 1 else 0) + count P t.
Proof.
  unfold count. simpl. destruct (P e); reflexivity.
Qed.

Lemma count_nil (P : Event -> bool) : count P [] = 0.
Proof. reflexivity. Qed.

Lemma count_zero_Forall (P : Event -> bool) (t : Trace) :
  count P t = 0 <-> Forall (fun e => P e = false) t.
Proof.
  induction t as [|e t IH].
  - split; intros; [constructor | reflexivity].
  - rewrite count_cons. split.
    + intros H. destruct (P e) eqn:He; [discriminate |].
      constructor; [assumption | apply IH; exact H].
    + intros H. inversion H as [|? ? He Ht]; subst.
      rewrite He. apply IH. exact Ht.
Qed.

(** A loop whose condition is false at entry does nothing. *)
Lemma video_loop_closed env conf model frames :
  video_loop env conf model false frames = ret ExitCond.
Proof. destruct frames; reflexivity. Qed.

Lemma webcam_loop_stopped env conf model frames :
  webcam_loop env conf model true frames = ret ExitCond.
Proof. destruct frames; reflexivity. Qed.

(** One frame of either loop, when nothing raises. *)
Lemma display_ok env conf model image p :
  processes env conf model image = true ->
  exists res,
    (emit (EvRead true) ;; _display_detected_frames env conf model image) p
    = (frame_steps env conf model image, p, Ret res).
Proof.
  unfold processes, frame_steps, _display_detected_frames, bind, emit, lift.
  destruct (cv2_resize env image standard_size) as [image'|]; [|discriminate].
  destruct (predict env model conf image') as [res|]; [|discriminate].
  intros _. exists tt. reflexivity.
Qed.

Lemma frame_steps_counts env conf model image :
  processes env conf model image = true ->
  count is_predict (frame_steps env conf model image) = 1 /\
  count is_slot_image (frame_steps env conf model image) = 1 /\
  count is_error (frame_steps env conf model image) = 0 /\
  count is_release (frame_steps env conf model image) = 0 /\
  count is_empty (frame_steps env conf model image) = 0.
Proof.
  unfold processes, frame_steps.
  destruct (cv2_resize env image standard_size) as [image'|]; [|discriminate].
  destruct (predict env model conf image') as [res|]; [|discriminate].
  intros _. repeat split; reflexivity.
Qed.

Lemma flat_map_counts env conf model frames :
  forallb (processes env conf model) frames = true ->
  let t := flat_map (frame_steps env conf model) frames in
  count is_predict t = length frames /\
  count is_slot_image t = length frames /\
  count is_error t = 0 /\
  count is_release t = 0 /\
  count is_empty t = 0.
Proof.
  induction frames as [|f frames IH]; simpl.
  - intros _. repeat split; reflexivity.
  - intros H. apply andb_prop in H as [Hf Hrest].
    destruct (frame_steps_counts env conf model f Hf) as (a & b & c & d & e).
    destruct (IH Hrest) as (a' & b' & c' & d' & e').
    rewrite !count_app, a, b, c, d, e, a', b', c', d', e'.
    repeat split; reflexivity.
Qed.

(** The video loop on an opened decoder whose frames all pass. *)
Lemma video_loop_ok env conf model frames p :
  forallb (processes env conf model) frames = true ->
  video_loop env conf model true frames p
  = (flat_map (frame_steps env conf model) frames ++ [EvRead false; EvRelease],
     p, Ret ExitBreak).
Proof.
  induction frames as [|f frames IH]; simpl.
  - intros _. reflexivity.
  - intros H. apply andb_prop in H as [Hf Hrest].
    destruct (display_ok env conf model f p Hf) as [[] Hd].
    unfold bind in *.
    unfold emit in Hd at 1. simpl in Hd.
    unfold emit at 1. simpl.
    destruct (_display_detected_frames env conf model f p) as [[t1 p1] r1].
    destruct r1 as [[]|]; [|discriminate].
    inversion Hd; subst.
    rewrite (IH Hrest). simpl.
    rewrite <- List.app_assoc. reflexivity.
Qed.

(** ** The video loop *)

(** C1 (as amended): a video whose decoder opened and delivers N frames,
    each of which passes resize and inference without an exception,
    started by the user: the run logs one
    inference call per frame, each directly followed by one update of the
    one streaming slot, then the failed read and the one release; it
    leaves the loop by [break] (EXHAUSTED) and reports no error. *)
Theorem video_exhausts_after_N_frames env ui conf model up p :
  video_file ui = Some up ->
  start_pressed ui = true ->
  materialize up = None ->
  cap_opened (decoder up) = true ->
  forallb (processes env conf model) (cap_frames (decoder up)) = true ->
  let frames := cap_frames (decoder up) in
  let run := infer_uploaded_video env ui conf model p in
  trace_of run
  = [EvShowUpload; EvButton BtnStart true; EvOpen TempFile; EvEmpty]
    ++ flat_map (frame_steps env conf model) frames
    ++ [EvRead false; EvRelease] /\
  Forall (fun f => exists f' res,
            frame_steps env conf model f
            = [EvRead true; EvPredict conf f' (Ret res); EvSlotImage (plot res)])
         frames /\
  count is_predict (trace_of run) = length frames /\
  count is_slot_image (trace_of run) = length frames /\
  count is_empty (trace_of run) = 1 /\
  count is_error (trace_of run) = 0 /\
  count is_release (trace_of run) = 1 /\
  result_of run = Ret ExitBreak /\
  final_state ExitBreak = EXHAUSTED.
Proof.
  intros Hup Hstart Hmat Hopen Hok frames run.
  assert (Hrun : run =
    ([EvShowUpload; EvButton BtnStart true; EvOpen TempFile; EvEmpty]
       ++ flat_map (frame_steps env conf model) frames
       ++ [EvRead false; EvRelease], p, Ret ExitBreak)).
  { subst run. unfold infer_uploaded_video.
    rewrite Hup, Hstart, Hmat, Hopen.
    unfold bind, try_except, st_button, raise_if, emit, ret. simpl.
    unfold bind, emit, ret. simpl.
    rewrite (video_loop_ok env conf model _ p Hok). reflexivity. }
  rewrite Hrun. unfold trace_of, result_of. simpl fst. simpl snd.
  destruct (flat_map_counts env conf model frames Hok) as (a & b & c & d & e).
  split; [reflexivity|].
  split.
  { apply List.Forall_forall. intros f Hf.
    assert (Hpf : processes env conf model f = true).
    { exact (proj1 (forallb_forall _ _) Hok f Hf). }
    unfold processes in Hpf. unfold frame_steps.
    destruct (cv2_resize env f standard_size) as [f'|]; [|discriminate].
    destruct (predict env model conf f') as [res|]; [|discriminate].
    exists f', res. reflexivity. }
  repeat (rewrite count_cons || rewrite count_app).
  rewrite a, b, c, d, e, !count_nil.
  repeat split; try reflexivity; simpl; lia.
Qed.

Lemma video_exhausts_after_N_frames_witness :
  let ui := with_video base_inputs ten_frame_video true in
  let run := infer_uploaded_video stub_env ui (1 # 2) sample_model fresh_process in
  count is_predict (trace_of run) = 10 /\
  count is_slot_image (trace_of run) = 10 /\
  count is_error (trace_of run) = 0 /\
  result_of run = Ret ExitBreak.
Proof.
  pose proof (video_exhausts_after_N_frames stub_env
                (with_video base_inputs ten_frame_video true) (1 # 2)
                sample_model ten_frame_video fresh_process
                eq_refl eq_refl eq_refl eq_refl eq_refl) as H.
  simpl in H. destruct H as (_ & _ & a & b & _ & c & _ & d & _).
  repeat split; assumption.
Defined.

(** ** Events of composed computations *)

Lemma all_events_ret {A} Q (a : A) : all_events Q (ret a).
Proof. intros p. constructor. Qed.

Lemma all_events_raise {A} Q e : all_events Q (@raise A e).
Proof. intros p. constructor. Qed.

Lemma all_events_lift {A} Q (r : Res A) : all_events Q (lift r).
Proof. intros p. constructor. Qed.

Lemma all_events_emit (Q : Event -> Prop) e : Q e -> all_events Q (emit e).
Proof. intros H p. constructor; [exact H | constructor]. Qed.

Lemma all_events_bind {A B} Q (m : M A) (f : A -> M B) :
  all_events Q m -> (forall a, all_events Q (f a)) -> all_events Q (bind m f).
Proof.
  intros Hm Hf p. unfold bind, trace_of.
  specialize (Hm p). unfold trace_of in Hm.
  destruct (m p) as [[t1 p1] [a|e]]; simpl in *; [|exact Hm].
  specialize (Hf a p1). unfold trace_of in Hf.
  destruct (f a p1) as [[t2 p2] r]; simpl in *.
  apply List.Forall_app. split; assumption.
Qed.

Lemma all_events_try {A} Q (m : M A) (h : Exn -> M A) :
  all_events Q m -> (forall e, all_events Q (h e)) ->
  all_events Q (try_except m h).
Proof.
  intros Hm Hh p. unfold try_except, trace_of.
  specialize (Hm p). unfold trace_of in Hm.
  destruct (m p) as [[t1 p1] [a|e]]; simpl in *; [exact Hm|].
  specialize (Hh e p1). unfold trace_of in Hh.
  destruct (h e p1) as [[t2 p2] r]; simpl in *.
  apply List.Forall_app. split; assumption.
Qed.

Lemma all_events_bind_lift {A B} Q (r : Res A) (f : A -> M B) :
  (forall a, r = Ret a -> all_events Q (f a)) -> all_events Q (bind (lift r) f).
Proof.
  intros Hf p. unfold bind, lift, trace_of.
  destruct r as [a|e]; simpl; [|constructor].
  specialize (Hf a eq_refl p). unfold trace_of in Hf.
  destruct (f a p) as [[t2 p2] r]; simpl in *. exact Hf.
Qed.

Ltac events_step :=
  match goal with
  | |- all_events _ (bind (lift _) _) => apply all_events_bind_lift; intros ? ?
  | |- all_events _ (bind _ _) => apply all_events_bind; [|intros ?]
  | |- all_events _ (try_except _ _) => apply all_events_try; [|intros ?]
  | |- all_events _ (ret _) => apply all_events_ret
  | |- all_events _ (raise _) => apply all_events_raise
  | |- all_events _ (lift _) => apply all_events_lift
  | |- all_events _ (emit _) => apply all_events_emit
  | |- all_events _ (st_button _ _) => unfold st_button
  | |- all_events _ (lookup_var _ _) => unfold lookup_var
  | |- all_events _ (raise_if _) => unfold raise_if
  | |- all_events _ (index _ _) => unfold index
  | |- all_events _ (match ?x with _ => _ end) => destruct x eqn:?
  | |- all_events _ _ => progress cbv zeta
  end.

Ltac events := repeat events_step.

Lemma all_events_load_model Q env path :
  (forall ok, Q (EvYOLO path ok)) -> all_events Q (load_model env path).
Proof.
  intros HQ p. unfold load_model, trace_of.
  destruct (cache p !! path); simpl; [constructor|].
  destruct (YOLO env path); simpl; (constructor; [apply HQ | constructor]).
Qed.

Section Threshold.

Variables (env : Env) (t : Q) (B : Box -> Prop).
Hypothesis HB : forall model image res,
  predict env model t image = Ret res -> Forall B (boxes res).

Lemma display_sound model image :
  all_events (sound_event t B)
    (_display_detected_frames env t model image).
Proof.
  unfold _display_detected_frames. events; simpl; auto.
  split; [reflexivity|].
  destruct (predict env model t a) eqn:Hp; [|exact I].
  exact (HB _ _ _ Hp).
Qed.


Lemma video_loop_sound model opened frames :
  all_events (sound_event t B) (video_loop env t model opened frames).
Proof.
  induction frames as [|f frames IH]; simpl; destruct opened; events;
    simpl; auto using display_sound.
Qed.

Lemma webcam_loop_sound model flag frames :
  all_events (sound_event t B) (webcam_loop env t model flag frames).
Proof.
  induction frames as [|f frames IH]; simpl; destruct flag; simpl; events;
    simpl; auto using display_sound.
Qed.

Lemma for_each_boxes_sound (bs : list Box) :
  Forall B bs ->
  all_events (sound_event t B)
    (for_each bs (fun box => emit (EvWrite (MsgBox (xywh box))))).
Proof.
  induction 1 as [|b bs Hb Hbs IH]; simpl; events; simpl; auto.
  exists b. split; [reflexivity | exact Hb].
Qed.

Lemma image_sound ui model :
  all_events (sound_event t B) (infer_uploaded_image env ui t model).
Proof.
  unfold infer_uploaded_image. events; simpl; auto.
  - split; [reflexivity|].
    match goal with
    | |- match ?o with _ => _ end => destruct o eqn:Hp; [|exact I]
    end.
    exact (HB _ _ _ Hp).
  - apply for_each_boxes_sound.
    match goal with
    | H : predict _ _ _ _ = Ret _ |- _ => exact (HB _ _ _ H)
    end.
Qed.

Lemma video_sound ui model :
  all_events (sound_event t B) (infer_uploaded_video env ui t model).
Proof.
  unfold infer_uploaded_video. events; simpl; auto using video_loop_sound.
Qed.

Lemma webcam_sound ui model :
  all_events (sound_event t B) (infer_uploaded_webcam env ui t model).
Proof.
  unfold infer_uploaded_webcam. events; simpl; auto using webcam_loop_sound.
Qed.

End Threshold.

Section AppThreshold.

Variables (cfg : Config) (env : Env) (ui : Inputs) (B : Box -> Prop).
Hypothesis HB : forall model image res,
  predict env model (confidence ui) image = Ret res -> Forall B (boxes res).

Lemma app_sound : all_events (sound_event (confidence ui) B) (app cfg env ui).
Proof.
  unfold app. events; simpl;
    auto using all_events_load_model, image_sound, video_sound, webcam_sound.
  all: apply all_events_load_model; intros; exact I.
Qed.

End AppThreshold.


(** ** Start button and camera *)

Lemma display_no_start env conf model image :
  all_events (fun e => is_start_button e = false)
    (_display_detected_frames env conf model image).
Proof. unfold _display_detected_frames. events; reflexivity. Qed.

Lemma webcam_loop_no_start env conf model flag frames :
  all_events (fun e => is_start_button e = false)
    (webcam_loop env conf model flag frames).
Proof.
  induction frames as [|f frames IH]; simpl; destruct flag; simpl; events;
    try reflexivity; auto using display_no_start.
Qed.

Lemma webcam_loop_reads_first env conf model frames p :
  exists ok rest,
    trace_of (webcam_loop env conf model false frames p) = EvRead ok :: rest.
Proof.
  destruct frames as [|f frames]; simpl.
  - exists false, [EvRelease]. reflexivity.
  - exists true. unfold bind at 1. unfold emit at 1.
    match goal with
    | |- context [match ?m p with _ => _ end] => destruct (m p) as [[t q] r]
    end.
    exists t. reflexivity.
Qed.

(** C10: in image and video mode nothing is inferred and no result is
    shown unless a file is uploaded and the start button is pressed in
    this run (the video decoder is not even opened); the webcam entry
    point draws only a stop button, opens device 0 at once and, unless
    stop is pressed, goes straight to the first read. *)
Theorem start_gate_and_immediate_camera env ui conf model p :
  (image_file ui = None \/ start_pressed ui = false ->
   count is_predict (trace_of (infer_uploaded_image env ui conf model p)) = 0 /\
   count is_result_display
     (trace_of (infer_uploaded_image env ui conf model p)) = 0) /\
  (video_file ui = None \/ start_pressed ui = false ->
   count is_predict (trace_of (infer_uploaded_video env ui conf model p)) = 0 /\
   count is_result_display
     (trace_of (infer_uploaded_video env ui conf model p)) = 0 /\
   count is_open (trace_of (infer_uploaded_video env ui conf model p)) = 0 /\
   result_of (infer_uploaded_video env ui conf model p) = Ret NotStarted) /\
  (exists rest,
     trace_of (infer_uploaded_webcam env ui conf model p)
     = EvButton BtnStop (stop_pressed ui) :: EvOpen (Device 0) :: EvEmpty :: rest /\
     (stop_pressed ui = false -> exists ok rest', rest = EvRead ok :: rest') /\
     count is_start_button
       (trace_of (infer_uploaded_webcam env ui conf model p)) = 0).
Proof.
  split; [|split].
  - intros H. unfold infer_uploaded_image, bind, st_button, lift, emit, ret.
    destruct (image_file ui) as [up|]; [|split; reflexivity].
    destruct H as [H|H]; [discriminate|]. rewrite H.
    destruct (image_open up); split; reflexivity.
  - intros H. unfold infer_uploaded_video, bind, st_button, emit, ret.
    destruct (video_file ui) as [up|]; [|repeat split; reflexivity].
    destruct H as [H|H]; [discriminate|]. rewrite H.
    repeat split; reflexivity.
  - assert (Hno : count is_start_button
              (trace_of (infer_uploaded_webcam env ui conf model p)) = 0).
    { apply count_zero_Forall.
      cut (all_events (fun e => is_start_button e = false)
             (infer_uploaded_webcam env ui conf model)); [intros H; apply H|].
      unfold infer_uploaded_webcam. events; try reflexivity.
      apply webcam_loop_no_start. }
    revert Hno.
    unfold infer_uploaded_webcam, try_except, bind, st_button, emit, ret.
    simpl.
    destruct (stop_pressed ui) eqn:Hstop.
    + rewrite webcam_loop_stopped. simpl. intros Hno. exists [].
      split; [reflexivity|]. split; [intros Hf; discriminate Hf | exact Hno].
    + destruct (webcam_loop_reads_first env conf model (readable (camera ui)) p)
        as (ok & rest & Hw).
      unfold trace_of in *.
      destruct (webcam_loop env conf model false (readable (camera ui)) p)
        as [[t q] r].
      simpl in Hw. subst t.
      destruct r as [x|e]; simpl; intros Hno.
      * exists (EvRead ok :: rest).
        split; [reflexivity|]. split; [|exact Hno].
        intros _. exists ok, rest. reflexivity.
      * exists (EvRead ok :: rest ++ [EvError (MsgVideoError e)]).
        split; [reflexivity|]. split; [|exact Hno].
        intros _. exists ok, (rest ++ [EvError (MsgVideoError e)]). reflexivity.
Qed.

Lemma start_gate_and_immediate_camera_witness :
  count is_predict
    (trace_of (infer_uploaded_video stub_env
                 (with_video base_inputs ten_frame_video false) (1 # 2)
                 sample_model fresh_process)) = 0 /\
  count is_predict
    (trace_of (infer_uploaded_image stub_env
                 (with_image base_inputs sample_image false) (1 # 2)
                 sample_model fresh_process)) = 0.
Proof.
  split.
  - apply (start_gate_and_immediate_camera stub_env
             (with_video base_inputs ten_frame_video false) (1 # 2)
             sample_model fresh_process).
    right. reflexivity.
  - apply (start_gate_and_immediate_camera stub_env
             (with_image base_inputs sample_image false) (1 # 2)
             sample_model fresh_process).
    right. reflexivity.
Defined.

(** ** Release of the capture handle *)

Lemma display_no_release env conf model image p :
  count is_release (trace_of (_display_detected_frames env conf model image p)) = 0.
Proof.
  apply count_zero_Forall.
  cut (all_events (fun e => is_release e = false)
         (_display_detected_frames env conf model image)); [intros H; apply H|].
  unfold _display_detected_frames. events; reflexivity.
Qed.

(** Either loop calls [release()] on one exit only: the [break] after a
    failed read. *)
Lemma video_loop_release env conf model opened frames p :
  count is_release (trace_of (video_loop env conf model opened frames p))
  = releases_of (result_of (video_loop env conf model opened frames p)).
Proof.
  destruct opened; [|rewrite video_loop_closed; reflexivity].
  revert p. induction frames as [|f frames IH]; intros p.
  - reflexivity.
  - remember (video_loop env conf model true (f :: frames) p) as run eqn:Hrun.
    simpl in Hrun. unfold bind, emit in Hrun.
    pose proof (display_no_release env conf model f p) as Hd.
    unfold trace_of in Hd.
    destruct (_display_detected_frames env conf model f p) as [[t1 p1] [[]|e]];
      simpl in Hd.
    + specialize (IH p1). unfold trace_of, result_of in IH.
      destruct (video_loop env conf model true frames p1) as [[t2 p2] r].
      subst run. unfold trace_of, result_of. simpl in *.
      rewrite count_cons, count_app, Hd, IH. reflexivity.
    + subst run. unfold trace_of, result_of. simpl.
      rewrite count_cons, Hd. reflexivity.
Qed.

Lemma webcam_loop_release env conf model flag frames p :
  count is_release (trace_of (webcam_loop env conf model flag frames p))
  = releases_of (result_of (webcam_loop env conf model flag frames p)).
Proof.
  destruct flag; [rewrite webcam_loop_stopped; reflexivity|].
  revert p. induction frames as [|f frames IH]; intros p.
  - reflexivity.
  - remember (webcam_loop env conf model false (f :: frames) p) as run eqn:Hrun.
    simpl in Hrun. unfold bind, emit in Hrun.
    pose proof (display_no_release env conf model f p) as Hd.
    unfold trace_of in Hd.
    destruct (_display_detected_frames env conf model f p) as [[t1 p1] [[]|e]];
      simpl in Hd.
    + specialize (IH p1). unfold trace_of, result_of in IH.
      destruct (webcam_loop env conf model false frames p1) as [[t2 p2] r].
      subst run. unfold trace_of, result_of. simpl in *.
      rewrite count_cons, count_app, Hd, IH. reflexivity.
    + subst run. unfold trace_of, result_of. simpl.
      rewrite count_cons, Hd. reflexivity.
Qed.

Lemma webcam_release_accounting env ui conf model p :
  count is_open (trace_of (infer_uploaded_webcam env ui conf model p)) = 1 /\
  count is_release (trace_of (infer_uploaded_webcam env ui conf model p))
  = releases_of (result_of (infer_uploaded_webcam env ui conf model p)).
Proof.
  remember (infer_uploaded_webcam env ui conf model p) as run eqn:Hrun.
  unfold infer_uploaded_webcam, try_except, bind, st_button, emit, ret in Hrun.
  simpl in Hrun.
  pose proof (webcam_loop_release env conf model (stop_pressed ui)
                (readable (camera ui)) p) as Hrel.
  assert (Hopen : count is_open
            (trace_of (webcam_loop env conf model (stop_pressed ui)
                         (readable (camera ui)) p)) = 0).
  { apply count_zero_Forall.
    cut (all_events (fun e => is_open e = false)
           (webcam_loop env conf model (stop_pressed ui) (readable (camera ui))));
      [intros H; apply H|].
    generalize (readable (camera ui)) as frames.
    induction frames as [|f frames IH]; simpl; destruct (stop_pressed ui);
      simpl; events; try reflexivity; try assumption.
    all: unfold _display_detected_frames; events; reflexivity. }
  unfold trace_of, result_of in *.
  destruct (webcam_loop env conf model (stop_pressed ui) (readable (camera ui)) p)
    as [[t q] [x|e]]; subst run; simpl in *.
  - rewrite !count_cons, Hopen, Hrel. split; reflexivity.
  - rewrite !count_cons, !count_app, Hopen, Hrel. split; reflexivity.
Qed.

Lemma video_release_accounting env ui conf model p :
  count is_release (trace_of (infer_uploaded_video env ui conf model p))
  = releases_of (result_of (infer_uploaded_video env ui conf model p)).
Proof.
  remember (infer_uploaded_video env ui conf model p) as run eqn:Hrun.
  unfold infer_uploaded_video, try_except, bind, st_button, raise_if, emit, ret
    in Hrun.
  destruct (video_file ui) as [up|]; [|subst run; reflexivity].
  simpl in Hrun.
  destruct (start_pressed ui); [|subst run; reflexivity].
  destruct (materialize up) as [e|]; [subst run; reflexivity|].
  simpl in Hrun.
  pose proof (video_loop_release env conf model (cap_opened (decoder up))
                (cap_frames (decoder up)) p) as Hrel.
  unfold trace_of, result_of in *.
  destruct (video_loop env conf model (cap_opened (decoder up))
              (cap_frames (decoder up)) p) as [[t q] [x|e]];
    subst run; simpl in *.
  - rewrite !count_cons, Hrel. reflexivity.
  - rewrite !count_cons, !count_app, Hrel. reflexivity.
Qed.

(** C2 (fails on the code): an exception during per-frame inference and a
    pressed stop button both leave the loop with one capture opened and
    no [release()] call; only the exit after a failed read releases. *)
Theorem release_skipped_on_error_and_stop :
  let video_run :=
    infer_uploaded_video raising_env
      (with_video base_inputs one_frame_video true) (1 # 2)
      sample_model fresh_process in
  let webcam_run :=
    infer_uploaded_webcam stub_env
      (with_camera base_inputs live_camera true) (1 # 2)
      sample_model fresh_process in
  (result_of video_run = Ret ExitExcept /\
   count is_open (trace_of video_run) = 1 /\
   count is_release (trace_of video_run) = 0) /\
  (result_of webcam_run = Ret ExitCond /\
   count is_open (trace_of webcam_run) = 1 /\
   count is_release (trace_of webcam_run) = 0).
Proof. vm_compute. repeat split. Qed.

(** C3 (fails on the code): with the stop button pressed the webcam entry
    point opens device 0, finds the loop condition false before any read,
    processes no frame and returns without a [release()] call. *)
Theorem webcam_stop_skips_release env ui conf model p :
  stop_pressed ui = true ->
  let run := infer_uploaded_webcam env ui conf model p in
  run = ([EvButton BtnStop true; EvOpen (Device 0); EvEmpty], p, Ret ExitCond) /\
  final_state ExitCond = STOPPED /\
  count is_predict (trace_of run) = 0 /\
  count is_open (trace_of run) = 1 /\
  count is_release (trace_of run) = 0.
Proof.
  intros Hstop run.
  assert (Hrun : run
    = ([EvButton BtnStop true; EvOpen (Device 0); EvEmpty], p, Ret ExitCond)).
  { subst run.
    unfold infer_uploaded_webcam, try_except, bind, st_button, emit, ret.
    rewrite Hstop. simpl. rewrite webcam_loop_stopped. reflexivity. }
  rewrite Hrun. repeat split.
Qed.

Lemma webcam_stop_skips_release_witness :
  count is_open
    (trace_of (infer_uploaded_webcam stub_env
                 (with_camera base_inputs live_camera true) (1 # 2)
                 sample_model fresh_process)) = 1 /\
  count is_release
    (trace_of (infer_uploaded_webcam stub_env
                 (with_camera base_inputs live_camera true) (1 # 2)
                 sample_model fresh_process)) = 0.
Proof.
  pose proof (webcam_stop_skips_release stub_env
                (with_camera base_inputs live_camera true) (1 # 2)
                sample_model fresh_process eq_refl) as H.
  simpl in H. destruct H as (_ & _ & _ & Ho & Hr).
  split; [exact Ho | exact Hr].
Defined.

(** ** Errors *)

(** C6 (fails on the code): in image mode an exception of
    [model.predict] is not caught: it leaves [infer_uploaded_image] as an
    exception, nothing is reported with [st.error] or [st.write]. *)
Theorem image_inference_error_escapes env ui conf model up image e p :
  image_file ui = Some up ->
  image_open up = Ret image ->
  start_pressed ui = true ->
  predict env model conf image = Raise e ->
  let run := infer_uploaded_image env ui conf model p in
  run = ([EvShowUpload; EvButton BtnStart true; EvPredict conf image (Raise e)],
         p, Raise e) /\
  count is_error (trace_of run) = 0.
Proof.
  intros Hup Himg Hstart Hp run.
  assert (Hrun : run
    = ([EvShowUpload; EvButton BtnStart true; EvPredict conf image (Raise e)],
       p, Raise e)).
  { subst run.
    unfold infer_uploaded_image, bind, st_button, lookup_var, lift, emit, ret.
    rewrite Hup, Himg, Hstart. simpl. rewrite Hp. reflexivity. }
  rewrite Hrun. split; reflexivity.
Qed.

Lemma image_inference_error_escapes_witness :
  result_of (infer_uploaded_image raising_env
               (with_image base_inputs sample_image true) (1 # 2)
               sample_model fresh_process)
  = Raise (ModelError "malformed input").
Proof.
  pose proof (image_inference_error_escapes raising_env
                (with_image base_inputs sample_image true) (1 # 2)
                sample_model sample_image _ _ fresh_process
                eq_refl eq_refl eq_refl eq_refl) as H.
  simpl in H. destruct H as [H _]. rewrite H. reflexivity.
Defined.

(** Nothing in the top-level script catches it either. *)
Lemma app_image_error_uncaught :
  result_of (app sample_config raising_env
               (with_source (with_image base_inputs sample_image true) "image")
               fresh_process)
  = Raise (ModelError "malformed input").
Proof. vm_compute. reflexivity. Qed.

(** The video loop, by contrast, catches the exception of the first
    frame, reports it once and ends. *)
Lemma video_inference_error_caught :
  let run :=
    infer_uploaded_video raising_env
      (with_video base_inputs ten_frame_video true) (1 # 2)
      sample_model fresh_process in
  result_of run = Ret ExitExcept /\
  count is_error (trace_of run) = 1 /\
  count is_predict (trace_of run) = 1 /\
  count is_slot_image (trace_of run) = 0.
Proof. vm_compute. repeat split. Qed.

(** C7 (fails on the code): a video the decoder cannot open raises
    nothing: the loop condition is false at once, no error is reported,
    no inference runs and [release()] is not called. *)
Theorem unopened_video_is_silent env ui conf model up p :
  video_file ui = Some up ->
  start_pressed ui = true ->
  materialize up = None ->
  cap_opened (decoder up) = false ->
  let run := infer_uploaded_video env ui conf model p in
  run = ([EvShowUpload; EvButton BtnStart true; EvOpen TempFile; EvEmpty],
         p, Ret ExitCond) /\
  count is_error (trace_of run) = 0 /\
  count is_predict (trace_of run) = 0 /\
  count is_release (trace_of run) = 0.
Proof.
  intros Hup Hstart Hmat Hclosed run.
  assert (Hrun : run
    = ([EvShowUpload; EvButton BtnStart true; EvOpen TempFile; EvEmpty],
       p, Ret ExitCond)).
  { subst run.
    unfold infer_uploaded_video, try_except, bind, st_button, raise_if, emit, ret.
    rewrite Hup, Hstart, Hmat, Hclosed. simpl.
    rewrite video_loop_closed. reflexivity. }
  rewrite Hrun. repeat split.
Qed.

Lemma unopened_video_is_silent_witness :
  count is_error
    (trace_of (infer_uploaded_video stub_env
                 (with_video base_inputs undecodable_video true) (1 # 2)
                 sample_model fresh_process)) = 0.
Proof.
  pose proof (unopened_video_is_silent stub_env
                (with_video base_inputs undecodable_video true) (1 # 2)
                sample_model undecodable_video fresh_process
                eq_refl eq_refl eq_refl eq_refl) as H.
  simpl in H. destruct H as (_ & He & _). exact He.
Defined.

(** ** Model loader *)

Lemma load_model_hit env path p h :
  cache p !! path = Some h -> load_model env path p = ([], p, Ret h).
Proof. intros H. unfold load_model. rewrite H. reflexivity. Qed.

Lemma load_model_stores env path p h :
  result_of (load_model env path p) = Ret h ->
  cache (proc_of (load_model env path p)) !! path = Some h.
Proof.
  unfold load_model, result_of, proc_of.
  destruct (cache p !! path) as [h'|] eqn:Hc; simpl.
  - intros H. inversion H; subst. exact Hc.
  - destruct (YOLO env path); simpl; [discriminate|].
    intros H. inversion H; subst. apply lookup_insert_eq.
Qed.

Lemma load_model_keeps env path : keeps_cache (load_model env path).
Proof.
  intros p k h Hk. unfold load_model, proc_of.
  destruct (cache p !! path) as [h'|] eqn:Hc; simpl; [exact Hk|].
  destruct (YOLO env path); simpl; [exact Hk|].
  rewrite lookup_insert_ne; [exact Hk|].
  intros ->. rewrite Hc in Hk. discriminate.
Qed.

Lemma load_calls_keeps calls p k h :
  cache p !! k = Some h -> cache (snd (load_calls calls p)) !! k = Some h.
Proof.
  revert p. induction calls as [|[env path] calls IH]; intros p Hk; simpl.
  - exact Hk.
  - pose proof (load_model_keeps env path p k h Hk) as H1.
    unfold proc_of in H1.
    destruct (load_model env path p) as [[t p1] r]. simpl in H1.
    specialize (IH p1 H1).
    destruct (load_calls calls p1) as [t' p2]. exact IH.
Qed.

(** Once a path is cached, no later call reads its file. *)
Lemma load_calls_cached_no_disk calls p path h :
  cache p !! path = Some h ->
  count (is_disk_load path) (fst (load_calls calls p)) = 0.
Proof.
  revert p. induction calls as [|[env k] calls IH]; intros p Hc; simpl.
  - reflexivity.
  - pose proof (load_model_keeps env k p path h Hc) as H1.
    unfold proc_of in H1.
    assert (Hhead : count (is_disk_load path) (trace_of (load_model env k p)) = 0).
    { unfold load_model, trace_of.
      destruct (cache p !! k) eqn:Hk; simpl; [reflexivity|].
      destruct (YOLO env k); simpl; [reflexivity|].
      rewrite count_cons, count_nil. simpl.
      destruct (String.eqb k path) eqn:E; [|reflexivity].
      apply String.eqb_eq in E. subst k. rewrite Hc in Hk. discriminate. }
    unfold trace_of in Hhead.
    destruct (load_model env k p) as [[t p1] r]. simpl in *.
    specialize (IH p1 H1).
    destruct (load_calls calls p1) as [t' p2]. simpl in *.
    rewrite count_app, Hhead, IH. reflexivity.
Qed.

Lemma load_calls_at_most_one_disk_load calls p path :
  count (is_disk_load path) (fst (load_calls calls p)) <= 1.
Proof.
  revert p. induction calls as [|[env k] calls IH]; intros p; simpl.
  - rewrite count_nil. lia.
  - unfold load_model.
    destruct (cache p !! k) as [h|] eqn:Hk.
    + specialize (IH p). destruct (load_calls calls p) as [t' p2]. exact IH.
    + destruct (YOLO env k) as [e|].
      * specialize (IH p). destruct (load_calls calls p) as [t' p2].
        simpl in *. rewrite count_cons. simpl. exact IH.
      * set (p1 := {| cache := <[k:={| hid := next_id p; hpath := k |}]> (cache p);
                      next_id := S (next_id p) |}).
        destruct (String.eqb k path) eqn:E.
        -- apply String.eqb_eq in E. subst k.
           assert (Hc : cache p1 !! path
                        = Some {| hid := next_id p; hpath := path |}).
           { apply lookup_insert_eq. }
           pose proof (load_calls_cached_no_disk calls p1 path _ Hc) as H0.
           destruct (load_calls calls p1) as [t' p2]. simpl in *.
           rewrite count_cons, H0. simpl. rewrite String.eqb_refl. lia.
        -- specialize (IH p1). destruct (load_calls calls p1) as [t' p2].
           simpl in *. rewrite count_cons. simpl. rewrite E. exact IH.
Qed.

Lemma keeps_cache_ret {A} (a : A) : keeps_cache (ret a).
Proof. intros p k h H. exact H. Qed.

Lemma keeps_cache_raise {A} e : keeps_cache (@raise A e).
Proof. intros p k h H. exact H. Qed.

Lemma keeps_cache_lift {A} (r : Res A) : keeps_cache (lift r).
Proof. intros p k h H. exact H. Qed.

Lemma keeps_cache_emit e : keeps_cache (emit e).
Proof. intros p k h H. exact H. Qed.

Lemma keeps_cache_bind {A B} (m : M A) (f : A -> M B) :
  keeps_cache m -> (forall a, keeps_cache (f a)) -> keeps_cache (bind m f).
Proof.
  intros Hm Hf p k h H. unfold bind, proc_of.
  specialize (Hm p k h H). unfold proc_of in Hm.
  destruct (m p) as [[t1 p1] [a|e]]; simpl in *; [|exact Hm].
  specialize (Hf a p1 k h Hm). unfold proc_of in Hf.
  destruct (f a p1) as [[t2 p2] r]. exact Hf.
Qed.

Lemma keeps_cache_try {A} (m : M A) (h : Exn -> M A) :
  keeps_cache m -> (forall e, keeps_cache (h e)) -> keeps_cache (try_except m h).
Proof.
  intros Hm Hh p k v H. unfold try_except, proc_of.
  specialize (Hm p k v H). unfold proc_of in Hm.
  destruct (m p) as [[t1 p1] [a|e]]; simpl in *; [exact Hm|].
  specialize (Hh e p1 k v Hm). unfold proc_of in Hh.
  destruct (h e p1) as [[t2 p2] r]. exact Hh.
Qed.

Ltac cache_step :=
  match goal with
  | |- keeps_cache (bind _ _) => apply keeps_cache_bind; [|intros ?]
  | |- keeps_cache (try_except _ _) => apply keeps_cache_try; [|intros ?]
  | |- keeps_cache (ret _) => apply keeps_cache_ret
  | |- keeps_cache (raise _) => apply keeps_cache_raise
  | |- keeps_cache (lift _) => apply keeps_cache_lift
  | |- keeps_cache (emit _) => apply keeps_cache_emit
  | |- keeps_cache (load_model _ _) => apply load_model_keeps
  | |- keeps_cache (st_button _ _) => unfold st_button
  | |- keeps_cache (lookup_var _ _) => unfold lookup_var
  | |- keeps_cache (raise_if _) => unfold raise_if
  | |- keeps_cache (index _ _) => unfold index
  | |- keeps_cache (_display_detected_frames _ _ _ _) =>
      unfold _display_detected_frames
  | |- keeps_cache (match ?x with _ => _ end) => destruct x
  | |- keeps_cache _ => progress cbv zeta
  end.

Ltac cache_steps := repeat cache_step.

Lemma video_loop_keeps env conf model opened frames :
  keeps_cache (video_loop env conf model opened frames).
Proof.
  induction frames as [|f frames IH]; simpl; destruct opened; cache_steps;
    assumption.
Qed.

Lemma webcam_loop_keeps env conf model flag frames :
  keeps_cache (webcam_loop env conf model flag frames).
Proof.
  induction frames as [|f frames IH]; simpl; destruct flag; simpl; cache_steps;
    assumption.
Qed.

Lemma for_each_keeps {A} (l : list A) (body : A -> M unit) :
  (forall a, keeps_cache (body a)) -> keeps_cache (for_each l body).
Proof.
  intros Hb. induction l as [|x l IH]; simpl; cache_steps; auto.
Qed.

Lemma app_keeps cfg env ui : keeps_cache (app cfg env ui).
Proof.
  unfold app, infer_uploaded_image, infer_uploaded_video, infer_uploaded_webcam.
  cache_steps;
    auto using video_loop_keeps, webcam_loop_keeps.
  all: apply for_each_keeps; intros; apply keeps_cache_emit.
Qed.

(** C5: after a call of [load_model] returned a handle for a path, any
    later call with that path in the same process - whatever was loaded
    in between and whatever the disk holds by then - returns that very
    handle without touching the disk or the process state; no series of
    calls reads the file of one path successfully more than once; a run
    of the script leaves the cached handle in place. *)
Theorem load_model_same_path_same_handle env1 env2 path p calls h :
  result_of (load_model env1 path p) = Ret h ->
  let p1 := proc_of (load_model env1 path p) in
  let pm := snd (load_calls calls p1) in
  load_model env2 path pm = ([], pm, Ret h) /\
  (forall calls' q,
      count (is_disk_load path) (fst (load_calls calls' q)) <= 1) /\
  (forall cfg env ui,
      cache (proc_of (app cfg env ui pm)) !! path = Some h).
Proof.
  intros H p1 pm.
  assert (Hpm : cache pm !! path = Some h).
  { subst pm. apply load_calls_keeps. subst p1.
    apply load_model_stores. exact H. }
  split; [|split].
  - apply load_model_hit. exact Hpm.
  - intros calls' q. apply load_calls_at_most_one_disk_load.
  - intros cfg env ui. apply app_keeps. exact Hpm.
Qed.

Lemma load_model_same_path_same_handle_witness :
  let path := "weights/yolov8n.pt" in
  let p1 := proc_of (load_model stub_env path fresh_process) in
  let pm := snd (load_calls [(stub_env, "weights/yolov8s.pt");
                             (missing_weights_env, "weights/none.pt")] p1) in
  load_model missing_weights_env path pm
  = ([], pm, Ret {| hid := 0; hpath := path |}).
Proof.
  intros path p1 pm.
  apply (load_model_same_path_same_handle stub_env missing_weights_env path
           fresh_process
           [(stub_env, "weights/yolov8s.pt");
            (missing_weights_env, "weights/none.pt")]
           {| hid := 0; hpath := path |}).
  vm_compute. reflexivity.
Defined.

(** ** Load failure *)

(** C8: when the weights of the selected path cannot be loaded, the run
    reports the load error once, stores no handle, and stops before any
    capture is opened or any inference is called. *)
Theorem failed_load_stops_run cfg env ui p bg e :
  background_image ui = Ret bg ->
  cache p !! model_path_of cfg ui = None ->
  YOLO env (model_path_of cfg ui) = Some e ->
  let run := app cfg env ui p in
  count is_load_error (trace_of run) = 1 /\
  In (EvError (MsgLoadModel (model_path_of cfg ui))) (trace_of run) /\
  count is_predict (trace_of run) = 0 /\
  count is_open (trace_of run) = 0 /\
  proc_of run = p /\
  cache (proc_of run) !! model_path_of cfg ui = None.
Proof.
  intros Hbg Hc Hy run. subst run.
  unfold app, index, model_path_of in *.
  generalize (nth_error (SOURCES_LIST cfg) 0) (nth_error (SOURCES_LIST cfg) 1)
             (nth_error (SOURCES_LIST cfg) 2).
  intros n0 n1 n2.
  unfold bind, try_except, load_model, lift, lookup_var, raise, emit, ret.
  rewrite Hbg.
  destruct (String.eqb (task_type ui) "检测") eqn:Et;
    [destruct (truthy (model_choice ui)) eqn:Em|];
    simpl in Hc, Hy; simpl; rewrite Hc, Hy; simpl.
  all: destruct n0 as [s0|]; simpl;
    [destruct (py_eq (source_choice ui) s0); simpl|].
  all: try (destruct n1 as [s1|]; simpl;
    [destruct (py_eq (source_choice ui) s1); simpl|]).
  all: try (destruct n2 as [s2|]; simpl;
    [destruct (py_eq (source_choice ui) s2); simpl|]).
  all: unfold trace_of, proc_of; simpl.
  all: repeat split; try reflexivity; try exact Hc; auto 6.
Qed.

Lemma failed_load_stops_run_witness :
  let run := app sample_config missing_weights_env
               (with_video base_inputs ten_frame_video true) fresh_process in
  count is_load_error (trace_of run) = 1 /\
  count is_predict (trace_of run) = 0.
Proof.
  pose proof (failed_load_stops_run sample_config missing_weights_env
                (with_video base_inputs ten_frame_video true) fresh_process
                "aGVsbG8=" (OSError "No such file or directory")
                eq_refl eq_refl eq_refl) as H.
  simpl in H. destruct H as (H1 & _ & H2 & _).
  split; [exact H1 | exact H2].
Defined.

(** A failed load leaves the name [model] unbound: the dispatch raises. *)
Lemma failed_load_then_name_error :
  result_of (app sample_config missing_weights_env
               (with_video base_inputs ten_frame_video true) fresh_process)
  = Raise (NameError "model").
Proof. vm_compute. reflexivity. Qed.

(** ** The script as prelude, load step and dispatch *)

Lemma bind_ret_l {A B} (a : A) (f : A -> M B) p : bind (ret a) f p = f a p.
Proof. unfold bind, ret. destruct (f a p) as [[t q] r]. reflexivity. Qed.

Lemma bind_lift_ret {A B} (a : A) (f : A -> M B) p :
  bind (lift (Ret a)) f p = f a p.
Proof. unfold bind, lift. destruct (f a p) as [[t q] r]. reflexivity. Qed.

Lemma bind_emit_l {B} e (f : unit -> M B) p :
  bind (emit e) f p = match f tt p with (t, q, r) => (e :: t, q, r) end.
Proof. unfold bind, emit. destruct (f tt p) as [[t q] r]. reflexivity. Qed.

Lemma bind_assoc_at {A B C} (m : M A) (f : A -> M B) (g : B -> M C) p :
  bind (bind m f) g p = bind m (fun a => bind (f a) g) p.
Proof.
  unfold bind. destruct (m p) as [[t1 p1] [a|e]]; [|reflexivity].
  destruct (f a p1) as [[t2 p2] [b|e]]; [|reflexivity].
  destruct (g b p2) as [[t3 p3] r]. rewrite List.app_assoc. reflexivity.
Qed.

Lemma app_decompose cfg env ui bg p :
  background_image ui = Ret bg ->
  app cfg env ui p
  = match app_body cfg env ui p with
    | (t, p1, r) => (prelude_trace ui ++ t, p1, r)
    end.
Proof.
  intros Hbg.
  unfold app, app_body, load_step, model_path_of, prelude_trace.
  rewrite Hbg, bind_lift_ret.
  destruct (String.eqb (task_type ui) "检测");
    [destruct (truthy (model_choice ui)) eqn:Em|]; simpl andb; cbv iota.
  - rewrite bind_ret_l, Em, bind_ret_l.
    match goal with
    | |- ?L = (let (_, _) := ?R in _) =>
        change L with R; destruct R as [[t q] r]
    end. reflexivity.
  - rewrite bind_ret_l, Em, bind_assoc_at, bind_emit_l, bind_ret_l.
    match goal with
    | |- (let (_, _) := ?L in _) = (let (_, _) := ?R in _) =>
        change L with R; destruct R as [[t q] r]
    end. reflexivity.
  - rewrite bind_assoc_at, bind_emit_l, bind_ret_l. simpl truthy. cbv iota.
    rewrite bind_assoc_at, bind_emit_l, bind_ret_l.
    match goal with
    | |- (let (_, _) := (let (_, _) := ?L in _) in _)
         = (let (_, _) := ?R in _) =>
        change L with R; destruct R as [[t q] r]
    end. reflexivity.
Qed.

(** ** Only the loader touches the process state *)

Lemma keeps_proc_ret {A} (a : A) : keeps_proc (ret a).
Proof. intros p. reflexivity. Qed.

Lemma keeps_proc_raise {A} e : keeps_proc (@raise A e).
Proof. intros p. reflexivity. Qed.

Lemma keeps_proc_lift {A} (r : Res A) : keeps_proc (lift r).
Proof. intros p. reflexivity. Qed.

Lemma keeps_proc_emit e : keeps_proc (emit e).
Proof. intros p. reflexivity. Qed.

Lemma keeps_proc_bind {A B} (m : M A) (f : A -> M B) :
  keeps_proc m -> (forall a, keeps_proc (f a)) -> keeps_proc (bind m f).
Proof.
  intros Hm Hf p. unfold bind, proc_of.
  specialize (Hm p). unfold proc_of in Hm.
  destruct (m p) as [[t1 p1] [a|e]]; simpl in *; [|exact Hm]. subst p1.
  specialize (Hf a p). unfold proc_of in Hf.
  destruct (f a p) as [[t2 p2] r]. exact Hf.
Qed.

Lemma keeps_proc_try {A} (m : M A) (h : Exn -> M A) :
  keeps_proc m -> (forall e, keeps_proc (h e)) -> keeps_proc (try_except m h).
Proof.
  intros Hm Hh p. unfold try_except, proc_of.
  specialize (Hm p). unfold proc_of in Hm.
  destruct (m p) as [[t1 p1] [a|e]]; simpl in *; [exact Hm|]. subst p1.
  specialize (Hh e p). unfold proc_of in Hh.
  destruct (h e p) as [[t2 p2] r]. exact Hh.
Qed.

Ltac proc_step :=
  match goal with
  | |- keeps_proc (bind _ _) => apply keeps_proc_bind; [|intros ?]
  | |- keeps_proc (try_except _ _) => apply keeps_proc_try; [|intros ?]
  | |- keeps_proc (ret _) => apply keeps_proc_ret
  | |- keeps_proc (raise _) => apply keeps_proc_raise
  | |- keeps_proc (lift _) => apply keeps_proc_lift
  | |- keeps_proc (emit _) => apply keeps_proc_emit
  | |- keeps_proc (st_button _ _) => unfold st_button
  | |- keeps_proc (lookup_var _ _) => unfold lookup_var
  | |- keeps_proc (raise_if _) => unfold raise_if
  | |- keeps_proc (index _ _) => unfold index
  | |- keeps_proc (_display_detected_frames _ _ _ _) =>
      unfold _display_detected_frames
  | |- keeps_proc (match ?x with _ => _ end) => destruct x
  | |- keeps_proc _ => progress cbv zeta
  end.

Ltac proc_steps := repeat proc_step.

Lemma video_loop_keeps_proc env conf model opened frames :
  keeps_proc (video_loop env conf model opened frames).
Proof.
  induction frames as [|f frames IH]; simpl; destruct opened; proc_steps;
    assumption.
Qed.

Lemma webcam_loop_keeps_proc env conf model flag frames :
  keeps_proc (webcam_loop env conf model flag frames).
Proof.
  induction frames as [|f frames IH]; simpl; destruct flag; simpl; proc_steps;
    assumption.
Qed.

Lemma for_each_keeps_proc {A} (l : list A) (body : A -> M unit) :
  (forall a, keeps_proc (body a)) -> keeps_proc (for_each l body).
Proof.
  intros Hb. induction l as [|x l IH]; simpl; proc_steps; auto.
Qed.

Lemma image_keeps_proc env ui conf model :
  keeps_proc (infer_uploaded_image env ui conf model).
Proof.
  unfold infer_uploaded_image. proc_steps.
  apply for_each_keeps_proc. intros. apply keeps_proc_emit.
Qed.

Lemma video_keeps_proc env ui conf model :
  keeps_proc (infer_uploaded_video env ui conf model).
Proof.
  unfold infer_uploaded_video. proc_steps. apply video_loop_keeps_proc.
Qed.

Lemma webcam_keeps_proc env ui conf model :
  keeps_proc (infer_uploaded_webcam env ui conf model).
Proof.
  unfold infer_uploaded_webcam. proc_steps. apply webcam_loop_keeps_proc.
Qed.

Lemma dispatch_keeps_proc cfg env ui model :
  keeps_proc (dispatch cfg env ui model).
Proof.
  unfold dispatch. proc_steps;
    auto using image_keeps_proc, video_keeps_proc, webcam_keeps_proc.
Qed.

(** The three ways the guarded load can go. *)
Lemma load_step_hit env path p h :
  cache p !! path = Some h ->
  load_step env path p = ([], p, Ret (Some h)).
Proof.
  intros H. unfold load_step, try_except, bind, load_model, ret.
  rewrite H. reflexivity.
Qed.

Lemma load_step_fail env path p e :
  cache p !! path = None -> YOLO env path = Some e ->
  load_step env path p
  = ([EvYOLO path false; EvError (MsgLoadModel path)], p, Ret None).
Proof.
  intros Hc Hy. unfold load_step, try_except, bind, load_model, emit, ret.
  rewrite Hc, Hy. reflexivity.
Qed.

Lemma load_step_fresh env path p :
  cache p !! path = None -> YOLO env path = None ->
  load_step env path p
  = ([EvYOLO path true],
     {| cache := <[path := {| hid := next_id p; hpath := path |}]> (cache p);
        next_id := S (next_id p) |},
     Ret (Some {| hid := next_id p; hpath := path |})).
Proof.
  intros Hc Hy. unfold load_step, try_except, bind, load_model, ret.
  rewrite Hc, Hy. reflexivity.
Qed.

(** Nothing after the load step reads model weights. *)
Lemma video_loop_no_yolo env conf model opened frames :
  all_events (fun e => is_yolo e = false)
    (video_loop env conf model opened frames).
Proof.
  induction frames as [|f frames IH]; simpl; destruct opened; events;
    try reflexivity; try assumption.
  unfold _display_detected_frames. events; reflexivity.
Qed.

Lemma webcam_loop_no_yolo env conf model flag frames :
  all_events (fun e => is_yolo e = false)
    (webcam_loop env conf model flag frames).
Proof.
  induction frames as [|f frames IH]; simpl; destruct flag; simpl; events;
    try reflexivity; try assumption.
  unfold _display_detected_frames. events; reflexivity.
Qed.

Lemma for_each_write_no_yolo (bs : list Box) :
  all_events (fun e => is_yolo e = false)
    (for_each bs (fun box => emit (EvWrite (MsgBox (xywh box))))).
Proof. induction bs as [|b bs IH]; simpl; events; auto. Qed.

Lemma dispatch_no_yolo cfg env ui model :
  all_events (fun e => is_yolo e = false) (dispatch cfg env ui model).
Proof.
  unfold dispatch, infer_uploaded_image, infer_uploaded_video,
    infer_uploaded_webcam.
  events; try reflexivity;
    auto using video_loop_no_yolo, webcam_loop_no_yolo, for_each_write_no_yolo.
Qed.

(** ** State and disk loads of a run *)

Lemma load_step_proc env path p :
  proc_of (load_step env path p) = proc_of (load_model env path p).
Proof.
  unfold load_step, try_except, bind, load_model, emit, ret, proc_of.
  destruct (cache p !! path); [reflexivity|].
  destruct (YOLO env path); reflexivity.
Qed.

Lemma load_step_yolo env path p :
  List.filter is_yolo (trace_of (load_step env path p))
  = trace_of (load_model env path p).
Proof.
  unfold load_step, try_except, bind, load_model, emit, ret, trace_of.
  destruct (cache p !! path); [reflexivity|].
  destruct (YOLO env path); reflexivity.
Qed.

Lemma filter_none (P : Event -> bool) (t : Trace) :
  Forall (fun e => P e = false) t -> List.filter P t = [].
Proof.
  induction 1 as [|e t He Ht IH]; simpl; [reflexivity|].
  rewrite He. exact IH.
Qed.

Lemma prelude_no_yolo ui : List.filter is_yolo (prelude_trace ui) = [].
Proof.
  unfold prelude_trace.
  destruct (String.eqb (task_type ui) "检测"); simpl;
    [destruct (truthy (model_choice ui))|]; reflexivity.
Qed.

Lemma app_body_proc cfg env ui p :
  proc_of (app_body cfg env ui p)
  = proc_of (load_model env (model_path_of cfg ui) p).
Proof.
  rewrite <- load_step_proc. unfold app_body, bind, proc_of.
  destruct (load_step env (model_path_of cfg ui) p) as [[t1 p1] [m|e]];
    simpl; [|reflexivity].
  pose proof (dispatch_keeps_proc cfg env ui m p1) as H. unfold proc_of in H.
  destruct (dispatch cfg env ui m p1) as [[t2 p2] r]. exact H.
Qed.

Lemma app_body_yolo cfg env ui p :
  List.filter is_yolo (trace_of (app_body cfg env ui p))
  = trace_of (load_model env (model_path_of cfg ui) p).
Proof.
  rewrite <- load_step_yolo. unfold app_body, bind, trace_of.
  destruct (load_step env (model_path_of cfg ui) p) as [[t1 p1] [m|e]];
    simpl; [|reflexivity].
  pose proof (dispatch_no_yolo cfg env ui m p1) as H. unfold trace_of in H.
  destruct (dispatch cfg env ui m p1) as [[t2 p2] r]. simpl in *.
  rewrite List.filter_app, (filter_none _ _ H), List.app_nil_r. reflexivity.
Qed.

Lemma app_proc cfg env ui p :
  proc_of (app cfg env ui p)
  = match background_image ui with
    | Ret _ => proc_of (load_model env (model_path_of cfg ui) p)
    | Raise _ => p
    end.
Proof.
  destruct (background_image ui) as [bg|e] eqn:Hbg.
  - rewrite (app_decompose cfg env ui bg p Hbg), <- app_body_proc.
    unfold proc_of. destruct (app_body cfg env ui p) as [[t q] r]. reflexivity.
  - unfold app, bind, lift. rewrite Hbg. reflexivity.
Qed.

Lemma app_yolo cfg env ui p :
  List.filter is_yolo (trace_of (app cfg env ui p))
  = match background_image ui with
    | Ret _ => trace_of (load_model env (model_path_of cfg ui) p)
    | Raise _ => []
    end.
Proof.
  destruct (background_image ui) as [bg|e] eqn:Hbg.
  - rewrite (app_decompose cfg env ui bg p Hbg), <- app_body_yolo.
    unfold trace_of. destruct (app_body cfg env ui p) as [[t q] r]. simpl.
    rewrite List.filter_app, prelude_no_yolo. reflexivity.
  - unfold app, bind, lift. rewrite Hbg. reflexivity.
Qed.

Lemma load_calls_only_yolo calls p :
  List.filter is_yolo (fst (load_calls calls p)) = fst (load_calls calls p).
Proof.
  revert p. induction calls as [|[env path] calls IH]; intros p; simpl.
  - reflexivity.
  - assert (H : List.filter is_yolo (trace_of (load_model env path p))
               = trace_of (load_model env path p)).
    { unfold load_model, trace_of. destruct (cache p !! path); [reflexivity|].
      destruct (YOLO env path); reflexivity. }
    unfold trace_of in H.
    destruct (load_model env path p) as [[t p1] r]. simpl in H.
    specialize (IH p1). destruct (load_calls calls p1) as [t' p2]. simpl in *.
    rewrite List.filter_app, H, IH. reflexivity.
Qed.

(** A session loads and stores exactly as the series of its [load_model]
    calls does. *)
Lemma session_as_load_calls cfg runs p :
  snd (session cfg runs p) = snd (load_calls (calls_of cfg runs) p) /\
  List.filter is_yolo (fst (session cfg runs p))
  = fst (load_calls (calls_of cfg runs) p).
Proof.
  revert p. induction runs as [|[env ui] runs IH]; intros p; simpl.
  - split; reflexivity.
  - pose proof (app_proc cfg env ui p) as Hp.
    pose proof (app_yolo cfg env ui p) as Hy.
    unfold proc_of, trace_of in Hp, Hy.
    destruct (app cfg env ui p) as [[t p1] r]. simpl in Hp, Hy.
    destruct (background_image ui) as [bg|e]; simpl.
    + destruct (load_model env (model_path_of cfg ui) p) as [[tl pl] rl].
      simpl in Hp, Hy. subst p1.
      destruct (IH pl) as [IH1 IH2].
      destruct (session cfg runs pl) as [t' p2].
      destruct (load_calls (calls_of cfg runs) pl) as [t'' p3].
      simpl in *. split; [exact IH1|].
      rewrite List.filter_app, Hy, IH2. reflexivity.
    + subst p1. destruct (IH p) as [IH1 IH2].
      destruct (session cfg runs p) as [t' p2].
      destruct (load_calls (calls_of cfg runs) p) as [t'' p3].
      simpl in *. split; [exact IH1|].
      rewrite List.filter_app, Hy, IH2. reflexivity.
Qed.

Lemma count_disk_load_filter path (t : Trace) :
  count (is_disk_load path) (List.filter is_yolo t) = count (is_disk_load path) t.
Proof.
  induction t as [|e t IH]; [reflexivity|]. simpl.
  destruct e; simpl; rewrite ?count_cons; simpl; try exact IH.
  rewrite IH. reflexivity.
Qed.

(** X1: over a whole session of script runs in one process, whatever the
    widgets answer and whatever the disk holds from run to run, the weights
    of one path are read successfully at most once. *)
Theorem session_loads_each_path_once cfg runs p path :
  count (is_disk_load path) (fst (session cfg runs p)) <= 1.
Proof.
  rewrite <- count_disk_load_filter.
  destruct (session_as_load_calls cfg runs p) as [_ H]. rewrite H.
  apply load_calls_at_most_one_disk_load.
Qed.

Lemma count_filter_nil (P : Event -> bool) (t : Trace) :
  List.filter P t = [] -> count P t = 0.
Proof. unfold count. intros ->. reflexivity. Qed.

Lemma video_loop_after_load env conf model opened frames :
  all_events (fun e => after_load_event e = true)
    (video_loop env conf model opened frames).
Proof.
  induction frames as [|f frames IH]; simpl; destruct opened; events;
    try reflexivity; try assumption.
  unfold _display_detected_frames. events; reflexivity.
Qed.

Lemma webcam_loop_after_load env conf model flag frames :
  all_events (fun e => after_load_event e = true)
    (webcam_loop env conf model flag frames).
Proof.
  induction frames as [|f frames IH]; simpl; destruct flag; simpl; events;
    try reflexivity; try assumption.
  unfold _display_detected_frames. events; reflexivity.
Qed.

Lemma for_each_write_after_load (bs : list Box) :
  all_events (fun e => after_load_event e = true)
    (for_each bs (fun box => emit (EvWrite (MsgBox (xywh box))))).
Proof. induction bs as [|b bs IH]; simpl; events; auto. Qed.

Lemma dispatch_after_load cfg env ui model :
  all_events (fun e => after_load_event e = true) (dispatch cfg env ui model).
Proof.
  unfold dispatch, infer_uploaded_image, infer_uploaded_video,
    infer_uploaded_webcam.
  events; try reflexivity;
    auto using video_loop_after_load, webcam_loop_after_load,
      for_each_write_after_load.
Qed.

Lemma dispatch_count_zero (P : Event -> bool) cfg env ui model p :
  (forall e, after_load_event e = true -> P e = false) ->
  count P (trace_of (dispatch cfg env ui model p)) = 0.
Proof.
  intros HP. apply count_zero_Forall.
  pose proof (dispatch_after_load cfg env ui model p) as H.
  rewrite List.Forall_forall in *. intros e He. apply HP, H, He.
Qed.

(** X2: once a run has loaded the selected weights, a later run of the
    script that selects the same path reads nothing from disk, reports no
    load error and leaves the process state alone, even if the weights
    have become unreadable in the meantime. *)
Theorem rerun_reuses_model cfg env1 ui1 env2 ui2 p bg :
  background_image ui1 = Ret bg ->
  YOLO env1 (model_path_of cfg ui1) = None ->
  model_path_of cfg ui2 = model_path_of cfg ui1 ->
  let p1 := proc_of (app cfg env1 ui1 p) in
  count is_yolo (trace_of (app cfg env2 ui2 p1)) = 0 /\
  count is_load_error (trace_of (app cfg env2 ui2 p1)) = 0 /\
  proc_of (app cfg env2 ui2 p1) = p1.
Proof.
  intros Hbg Hy Hsame p1.
  assert (Hc : exists h, cache p1 !! model_path_of cfg ui1 = Some h).
  { subst p1. rewrite app_proc, Hbg. unfold load_model, proc_of.
    destruct (cache p !! model_path_of cfg ui1) as [h|] eqn:Hc; simpl.
    - exists h. exact Hc.
    - rewrite Hy. simpl. eexists. apply lookup_insert_eq. }
  destruct Hc as [h Hc].
  assert (Hl : load_model env2 (model_path_of cfg ui2) p1 = ([], p1, Ret h)).
  { rewrite Hsame. apply load_model_hit. exact Hc. }
  split; [|split].
  - apply count_filter_nil. rewrite app_yolo, Hl.
    destruct (background_image ui2); reflexivity.
  - destruct (background_image ui2) as [bg2|e] eqn:Hbg2.
    + rewrite (app_decompose cfg env2 ui2 bg2 p1 Hbg2).
      unfold app_body, bind. rewrite Hsame, (load_step_hit env2 _ p1 h Hc).
      pose proof (dispatch_count_zero is_load_error cfg env2 ui2 (Some h) p1)
        as Hd.
      unfold trace_of in *.
      destruct (dispatch cfg env2 ui2 (Some h) p1) as [[t q] r]. simpl in *.
      rewrite count_app, Hd.
      * unfold prelude_trace.
        destruct (String.eqb (task_type ui2) "检测"); simpl;
          [destruct (truthy (model_choice ui2))|]; reflexivity.
      * intros [] He; try reflexivity; simpl in He.
        destruct m; try reflexivity; discriminate.
    + unfold app, bind, lift. rewrite Hbg2. reflexivity.
  - rewrite app_proc, Hl. destruct (background_image ui2); reflexivity.
Qed.

(** ** What a run does to the cache *)

Lemma load_model_other env path p k :
  k <> path ->
  cache (proc_of (load_model env path p)) !! k = cache p !! k.
Proof.
  intros Hk. unfold load_model, proc_of.
  destruct (cache p !! path); simpl; [reflexivity|].
  destruct (YOLO env path); simpl; [reflexivity|].
  apply lookup_insert_ne. congruence.
Qed.

Lemma load_model_next_id env path p :
  next_id p <= next_id (proc_of (load_model env path p)) <= S (next_id p).
Proof.
  unfold load_model, proc_of.
  destruct (cache p !! path); simpl; [lia|].
  destruct (YOLO env path); simpl; lia.
Qed.

Lemma fresh_process_wf : wf_proc fresh_process.
Proof.
  split.
  - intros k h H. simpl in H. rewrite lookup_empty in H. discriminate.
  - intros k1 k2 h1 h2 H. simpl in H. rewrite lookup_empty in H. discriminate.
Qed.

Lemma load_model_wf env path p :
  wf_proc p -> wf_proc (proc_of (load_model env path p)).
Proof.
  intros [Hwf1 Hwf2]. unfold load_model, proc_of.
  destruct (cache p !! path) as [h|] eqn:Hc; simpl; [split; assumption|].
  destruct (YOLO env path); simpl; [split; assumption|].
  split.
  - intros k h Hk. simpl in *.
    destruct (decide (path = k)) as [->|Hne].
    + rewrite lookup_insert_eq in Hk. inversion Hk; subst. simpl.
      split; [reflexivity | lia].
    + rewrite lookup_insert_ne in Hk by exact Hne.
      destruct (Hwf1 k h Hk) as [Hp Hi]. split; [exact Hp | lia].
  - intros k1 k2 h1 h2 H1 H2 Hid. simpl in *.
    destruct (decide (path = k1)) as [E1|Hne1];
      destruct (decide (path = k2)) as [E2|Hne2].
    + congruence.
    + rewrite <- E1, lookup_insert_eq in H1. inversion H1; subst h1.
      simpl in Hid.
      rewrite lookup_insert_ne in H2 by exact Hne2.
      destruct (Hwf1 k2 h2 H2) as [_ Hi]. lia.
    + rewrite <- E2, lookup_insert_eq in H2. inversion H2; subst h2.
      simpl in Hid.
      rewrite lookup_insert_ne in H1 by exact Hne1.
      destruct (Hwf1 k1 h1 H1) as [_ Hi]. lia.
    + rewrite lookup_insert_ne in H1 by exact Hne1.
      rewrite lookup_insert_ne in H2 by exact Hne2.
      exact (Hwf2 k1 k2 h1 h2 H1 H2 Hid).
Qed.

Lemma load_calls_wf calls p : wf_proc p -> wf_proc (snd (load_calls calls p)).
Proof.
  revert p. induction calls as [|[env path] calls IH]; intros p Hwf; simpl.
  - exact Hwf.
  - pose proof (load_model_wf env path p Hwf) as H1. unfold proc_of in H1.
    destruct (load_model env path p) as [[t p1] r]. simpl in H1.
    specialize (IH p1 H1). destruct (load_calls calls p1) as [t' p2].
    exact IH.
Qed.

(** X3: a run of the script changes the cache at most under the path it
    selects: every other entry, present or absent, is as before, and at
    most one new handle identity is handed out. *)
Theorem run_touches_only_selected_path cfg env ui p k :
  k <> model_path_of cfg ui ->
  cache (proc_of (app cfg env ui p)) !! k = cache p !! k /\
  next_id p <= next_id (proc_of (app cfg env ui p)) <= S (next_id p).
Proof.
  intros Hk. rewrite app_proc.
  destruct (background_image ui); [|split; [reflexivity | lia]].
  split; [apply load_model_other; exact Hk | apply load_model_next_id].
Qed.

(** X4: in a process that started with an empty cache, after any session
    every cached handle records the path it is stored under, and two
    entries with the same handle identity are the same entry: different
    paths never share a model object. *)
Theorem session_handles_distinct cfg runs k1 k2 h1 h2 :
  let pf := snd (session cfg runs fresh_process) in
  cache pf !! k1 = Some h1 ->
  cache pf !! k2 = Some h2 ->
  hpath h1 = k1 /\ (hid h1 = hid h2 -> k1 = k2).
Proof.
  intros pf H1 H2.
  assert (Hwf : wf_proc pf).
  { subst pf. destruct (session_as_load_calls cfg runs fresh_process) as [E _].
    rewrite E. apply load_calls_wf, fresh_process_wf. }
  destruct Hwf as [Hwf1 Hwf2]. split.
  - exact (proj1 (Hwf1 k1 h1 H1)).
  - exact (Hwf2 k1 k2 h1 h2 H1 H2).
Qed.

(** ** Frame loops in general *)

Lemma display_loop_events env conf model image :
  all_events (fun e => loop_event e = true)
    (_display_detected_frames env conf model image).
Proof. unfold _display_detected_frames. events; reflexivity. Qed.

Lemma video_loop_events env conf model opened frames :
  all_events (fun e => loop_event e = true)
    (video_loop env conf model opened frames).
Proof.
  induction frames as [|f frames IH]; simpl; destruct opened; events;
    try reflexivity; auto using display_loop_events.
Qed.


Lemma count_zero_of_kind (K P : Event -> bool) (t : Trace) :
  Forall (fun e => K e = true) t ->
  (forall e, K e = true -> P e = false) ->
  count P t = 0.
Proof.
  intros Ht HP. apply count_zero_Forall.
  rewrite List.Forall_forall in *. intros e He. apply HP, Ht, He.
Qed.

Lemma video_loop_count_zero (P : Event -> bool) env conf model opened frames p :
  (forall e, loop_event e = true -> P e = false) ->
  count P (trace_of (video_loop env conf model opened frames p)) = 0.
Proof.
  intros HP. eapply count_zero_of_kind; [apply video_loop_events | exact HP].
Qed.


Lemma loop_event_not_open e : loop_event e = true -> is_open e = false.
Proof. destruct e; simpl; congruence. Qed.


Lemma loop_event_not_empty e : loop_event e = true -> is_empty e = false.
Proof. destruct e; simpl; congruence. Qed.

(** The frame loops themselves let every exception through. *)
Lemma video_run_shape env ui conf model p :
  (exists x, infer_uploaded_video env ui conf model p
             = (match video_file ui with
                | Some _ => [EvShowUpload; EvButton BtnStart (start_pressed ui)]
                | None => []
                end, p, Ret x)
             /\ x = NotStarted
             /\ (video_file ui = None \/ start_pressed ui = false)) \/
  (exists up e, video_file ui = Some up /\ start_pressed ui = true /\
             materialize up = Some e /\
             infer_uploaded_video env ui conf model p
             = ([EvShowUpload; EvButton BtnStart true;
                 EvError (MsgVideoError e)], p, Ret ExitExcept)) \/
  (exists up, video_file ui = Some up /\ start_pressed ui = true /\
             materialize up = None /\
             infer_uploaded_video env ui conf model p
             = match video_loop env conf model (cap_opened (decoder up))
                       (cap_frames (decoder up)) p with
               | (t, q, Ret x) =>
                   ([EvShowUpload; EvButton BtnStart true; EvOpen TempFile;
                     EvEmpty] ++ t, q, Ret x)
               | (t, q, Raise e) =>
                   ([EvShowUpload; EvButton BtnStart true; EvOpen TempFile;
                     EvEmpty] ++ t ++ [EvError (MsgVideoError e)], q,
                    Ret ExitExcept)
               end).
Proof.
  unfold infer_uploaded_video.
  destruct (video_file ui) as [up|].
  - rewrite bind_emit_l. unfold st_button.
    rewrite bind_assoc_at, bind_emit_l, bind_ret_l.
    destruct (start_pressed ui).
    + destruct (materialize up) as [e|] eqn:Hm.
      * right. left. exists up, e.
        split; [reflexivity|]. split; [reflexivity|]. split; [exact Hm|].
        unfold try_except, bind, raise_if, raise, emit, ret. reflexivity.
      * right. right. exists up.
        split; [reflexivity|]. split; [reflexivity|]. split; [exact Hm|].
        unfold try_except, bind, raise_if, emit, ret. simpl.
        destruct (video_loop env conf model (cap_opened (decoder up))
                    (cap_frames (decoder up)) p) as [[t q] [x|e]]; reflexivity.
    + left. exists NotStarted. repeat split. right. reflexivity.
  - left. exists NotStarted. rewrite bind_ret_l. repeat split.
    left. reflexivity.
Qed.

Lemma webcam_run_shape env ui conf model p :
  infer_uploaded_webcam env ui conf model p
  = match webcam_loop env conf model (stop_pressed ui)
            (readable (camera ui)) p with
    | (t, q, Ret x) =>
        ([EvButton BtnStop (stop_pressed ui); EvOpen (Device 0); EvEmpty] ++ t,
         q, Ret x)
    | (t, q, Raise e) =>
        ([EvButton BtnStop (stop_pressed ui); EvOpen (Device 0); EvEmpty]
           ++ t ++ [EvError (MsgVideoError e)], q, Ret ExitExcept)
    end.
Proof.
  unfold infer_uploaded_webcam, try_except, bind, st_button, emit, ret. simpl.
  destruct (webcam_loop env conf model (stop_pressed ui)
              (readable (camera ui)) p) as [[t q] [x|e]]; reflexivity.
Qed.




(** X6: open and release calls of the capture handle, on every input:
    the video entry point opens at most one decoder, the webcam entry
    point always opens exactly one device, and each calls [release()]
    once if the loop ended on a failed read and never otherwise. *)
Theorem capture_accounting env ui conf model p :
  (count is_open (trace_of (infer_uploaded_video env ui conf model p)) <= 1 /\
   count is_release (trace_of (infer_uploaded_video env ui conf model p))
   = releases_of (result_of (infer_uploaded_video env ui conf model p)) /\
   count is_release (trace_of (infer_uploaded_video env ui conf model p))
   <= count is_open (trace_of (infer_uploaded_video env ui conf model p))) /\
  (count is_open (trace_of (infer_uploaded_webcam env ui conf model p)) = 1 /\
   count is_release (trace_of (infer_uploaded_webcam env ui conf model p))
   = releases_of (result_of (infer_uploaded_webcam env ui conf model p))).
Proof.
  split; [|apply webcam_release_accounting].
  pose proof (video_release_accounting env ui conf model p) as Hrel.
  rewrite Hrel.
  destruct (video_run_shape env ui conf model p)
    as [(x & E & Hx & _) | [(up & e & _ & _ & _ & E) | (up & _ & _ & _ & E)]].
  - rewrite E. subst x. unfold trace_of, result_of, count. simpl.
    destruct (video_file ui); repeat split; simpl; lia.
  - rewrite E. unfold trace_of, result_of, count. simpl.
    repeat split; simpl; lia.
  - rewrite E.
    pose proof (video_loop_count_zero is_open env conf model
                  (cap_opened (decoder up)) (cap_frames (decoder up)) p
                  loop_event_not_open) as Hz.
    unfold result_of, trace_of in *.
    destruct (video_loop env conf model (cap_opened (decoder up))
                (cap_frames (decoder up)) p) as [[t q] [x|e]]; simpl in *.
    + rewrite !count_cons, Hz. simpl.
      destruct x; simpl; repeat split; lia.
    + rewrite !count_cons, count_app, Hz. unfold count. simpl.
      repeat split; lia.
Qed.

Lemma display_counts env conf model image p :
  let t := trace_of (_display_detected_frames env conf model image p) in
  count is_slot_image t <= count is_predict t /\
  count is_predict t <= 1 /\
  count (is_read true) t = 0 /\
  count (is_read false) t = 0.
Proof.
  unfold _display_detected_frames, bind, lift, emit, trace_of, count.
  destruct (cv2_resize env image standard_size) as [image'|]; simpl;
    [|repeat split; lia].
  destruct (predict env model conf image'); simpl; repeat split; lia.
Qed.

Lemma video_loop_ordered env conf model opened frames p :
  pipeline_ordered (length frames)
    (trace_of (video_loop env conf model opened frames p)).
Proof.
  destruct opened;
    [|rewrite video_loop_closed; unfold pipeline_ordered, trace_of, count;
      simpl; lia].
  revert p. induction frames as [|f frames IH]; intros p.
  - unfold pipeline_ordered, trace_of, count. simpl. lia.
  - remember (video_loop env conf model true (f :: frames) p) as run eqn:Hrun.
    simpl in Hrun. unfold bind, emit in Hrun.
    pose proof (display_counts env conf model f p) as Hd.
    unfold trace_of in Hd. cbv zeta in Hd.
    destruct (_display_detected_frames env conf model f p) as [[t1 p1] [[]|e]];
      simpl in Hd; destruct Hd as (a & b & c & d).
    + specialize (IH p1). unfold pipeline_ordered, trace_of in IH.
      destruct (video_loop env conf model true frames p1) as [[t2 p2] r].
      subst run. unfold pipeline_ordered, trace_of. simpl in *.
      rewrite !count_cons, !count_app. simpl. lia.
    + subst run. unfold pipeline_ordered, trace_of. simpl.
      rewrite !count_cons. simpl. lia.
Qed.

Lemma webcam_loop_ordered env conf model flag frames p :
  pipeline_ordered (length frames)
    (trace_of (webcam_loop env conf model flag frames p)).
Proof.
  destruct flag;
    [rewrite webcam_loop_stopped; unfold pipeline_ordered, trace_of, count;
     simpl; lia|].
  revert p. induction frames as [|f frames IH]; intros p.
  - unfold pipeline_ordered, trace_of, count. simpl. lia.
  - remember (webcam_loop env conf model false (f :: frames) p) as run eqn:Hrun.
    simpl in Hrun. unfold bind, emit in Hrun.
    pose proof (display_counts env conf model f p) as Hd.
    unfold trace_of in Hd. cbv zeta in Hd.
    destruct (_display_detected_frames env conf model f p) as [[t1 p1] [[]|e]];
      simpl in Hd; destruct Hd as (a & b & c & d).
    + specialize (IH p1). unfold pipeline_ordered, trace_of in IH.
      destruct (webcam_loop env conf model false frames p1) as [[t2 p2] r].
      subst run. unfold pipeline_ordered, trace_of. simpl in *.
      rewrite !count_cons, !count_app. simpl. lia.
    + subst run. unfold pipeline_ordered, trace_of. simpl.
      rewrite !count_cons. simpl. lia.
Qed.

(** X7: on every input the video and webcam runs keep the order of the
    pipeline: there are never more slot updates than inference calls,
    never more inference calls than successful reads, never more
    successful reads than the source holds frames, and at most one failed
    read. *)
Theorem pipeline_counts_ordered env ui conf model p :
  pipeline_ordered
    (match video_file ui with
     | Some up => length (cap_frames (decoder up))
     | None => 0
     end)
    (trace_of (infer_uploaded_video env ui conf model p)) /\
  pipeline_ordered (length (cap_frames (camera ui)))
    (trace_of (infer_uploaded_webcam env ui conf model p)).
Proof.
  split.
  - destruct (video_run_shape env ui conf model p)
      as [(x & E & _) | [(up & e & Hup & _ & _ & E) | (up & Hup & _ & _ & E)]].
    + rewrite E. unfold pipeline_ordered, trace_of, count.
      destruct (video_file ui); simpl; lia.
    + rewrite E. unfold pipeline_ordered, trace_of, count. simpl. lia.
    + rewrite E, Hup.
      pose proof (video_loop_ordered env conf model (cap_opened (decoder up))
                    (cap_frames (decoder up)) p) as Ho.
      unfold trace_of in *.
      destruct (video_loop env conf model (cap_opened (decoder up))
                  (cap_frames (decoder up)) p) as [[t q] [x|e]]; simpl fst in *.
      * unfold pipeline_ordered in *. simpl.
        rewrite !count_cons. simpl. lia.
      * unfold pipeline_ordered in *. simpl.
        rewrite !count_cons, !count_app, !count_cons, !count_nil. simpl. lia.
  - rewrite webcam_run_shape.
    pose proof (webcam_loop_ordered env conf model (stop_pressed ui)
                  (readable (camera ui)) p) as Ho.
    assert (Hlen : length (readable (camera ui))
                   <= length (cap_frames (camera ui))).
    { unfold readable. destruct (cap_opened (camera ui)); simpl; lia. }
    assert (Ho' : pipeline_ordered (length (cap_frames (camera ui)))
                    (trace_of (webcam_loop env conf model (stop_pressed ui)
                                 (readable (camera ui)) p))).
    { unfold pipeline_ordered in *. lia. }
    unfold trace_of in *.
    destruct (webcam_loop env conf model (stop_pressed ui)
                (readable (camera ui)) p) as [[t q] [x|e]]; simpl fst in *.
    + unfold pipeline_ordered in *. simpl.
      rewrite !count_cons. simpl. lia.
    + unfold pipeline_ordered in *. simpl.
      rewrite !count_cons, !count_app, !count_cons, !count_nil. simpl. lia.
Qed.

(** ** A frame that fails, a feed that ends *)

Lemma display_fail env conf model image e p :
  failure_of env conf model image = Some e ->
  (emit (EvRead true) ;; _display_detected_frames env conf model image) p
  = (frame_steps env conf model image, p, Raise e).
Proof.
  unfold failure_of, frame_steps, _display_detected_frames, bind, emit, lift.
  destruct (cv2_resize env image standard_size) as [image'|e1].
  - destruct (predict env model conf image') as [res|e2]; [discriminate|].
    intros H. inversion H; subst. reflexivity.
  - intros H. inversion H; subst. reflexivity.
Qed.

Lemma video_loop_cons env conf model f frames p :
  video_loop env conf model true (f :: frames) p
  = match (emit (EvRead true) ;; _display_detected_frames env conf model f) p with
    | (t1, p1, Ret _) =>
        match video_loop env conf model true frames p1 with
        | (t2, p2, r) => (t1 ++ t2, p2, r)
        end
    | (t1, p1, Raise e) => (t1, p1, Raise e)
    end.
Proof.
  simpl. unfold bind, emit.
  destruct (_display_detected_frames env conf model f p) as [[t1 p1] [[]|e]];
    [|reflexivity].
  destruct (video_loop env conf model true frames p1) as [[t2 p2] r].
  reflexivity.
Qed.

Lemma webcam_loop_cons env conf model f frames p :
  webcam_loop env conf model false (f :: frames) p
  = match (emit (EvRead true) ;; _display_detected_frames env conf model f) p with
    | (t1, p1, Ret _) =>
        match webcam_loop env conf model false frames p1 with
        | (t2, p2, r) => (t1 ++ t2, p2, r)
        end
    | (t1, p1, Raise e) => (t1, p1, Raise e)
    end.
Proof.
  simpl. unfold bind, emit.
  destruct (_display_detected_frames env conf model f p) as [[t1 p1] [[]|e]];
    [|reflexivity].
  destruct (webcam_loop env conf model false frames p1) as [[t2 p2] r].
  reflexivity.
Qed.

Lemma video_loop_fails env conf model good bad rest e p :
  forallb (processes env conf model) good = true ->
  failure_of env conf model bad = Some e ->
  video_loop env conf model true (good ++ bad :: rest) p
  = (flat_map (frame_steps env conf model) good
       ++ frame_steps env conf model bad, p, Raise e).
Proof.
  intros Hgood Hbad. induction good as [|f good IH].
  - change ([] ++ bad :: rest) with (bad :: rest).
    rewrite video_loop_cons, (display_fail _ _ _ _ _ _ Hbad).
    reflexivity.
  - simpl in Hgood. apply andb_prop in Hgood as [Hf Hgood].
    change ((f :: good) ++ bad :: rest) with (f :: (good ++ bad :: rest)).
    rewrite video_loop_cons.
    destruct (display_ok env conf model f p Hf) as [u Hd]. rewrite Hd.
    rewrite (IH Hgood). simpl flat_map. rewrite List.app_assoc. reflexivity.
Qed.

Lemma webcam_loop_fails env conf model good bad rest e p :
  forallb (processes env conf model) good = true ->
  failure_of env conf model bad = Some e ->
  webcam_loop env conf model false (good ++ bad :: rest) p
  = (flat_map (frame_steps env conf model) good
       ++ frame_steps env conf model bad, p, Raise e).
Proof.
  intros Hgood Hbad. induction good as [|f good IH].
  - change ([] ++ bad :: rest) with (bad :: rest).
    rewrite webcam_loop_cons, (display_fail _ _ _ _ _ _ Hbad).
    reflexivity.
  - simpl in Hgood. apply andb_prop in Hgood as [Hf Hgood].
    change ((f :: good) ++ bad :: rest) with (f :: (good ++ bad :: rest)).
    rewrite webcam_loop_cons.
    destruct (display_ok env conf model f p Hf) as [u Hd]. rewrite Hd.
    rewrite (IH Hgood). simpl flat_map. rewrite List.app_assoc. reflexivity.
Qed.

Lemma webcam_loop_ok env conf model frames p :
  forallb (processes env conf model) frames = true ->
  webcam_loop env conf model false frames p
  = (flat_map (frame_steps env conf model) frames ++ [EvRead false; EvRelease],
     p, Ret ExitBreak).
Proof.
  induction frames as [|f frames IH]; intros H.
  - reflexivity.
  - simpl in H. apply andb_prop in H as [Hf Hrest].
    rewrite webcam_loop_cons.
    destruct (display_ok env conf model f p Hf) as [u Hd]. rewrite Hd.
    rewrite (IH Hrest). simpl flat_map. rewrite List.app_assoc. reflexivity.
Qed.

Lemma frame_steps_read env conf model image :
  count (is_read true) (frame_steps env conf model image) = 1 /\
  count is_release (frame_steps env conf model image) = 0.
Proof.
  unfold frame_steps.
  destruct (cv2_resize env image standard_size) as [image'|];
    [destruct (predict env model conf image')|]; split; reflexivity.
Qed.

Lemma flat_map_reads env conf model frames :
  count (is_read true) (flat_map (frame_steps env conf model) frames)
  = length frames.
Proof.
  induction frames as [|f frames IH]; [reflexivity|]. simpl.
  rewrite count_app, IH, (proj1 (frame_steps_read env conf model f)).
  reflexivity.
Qed.

(** X8: an exception while a video frame is processed ends the loop for
    good: with the frames before it all processed, the run logs them, the
    read and the failed step of the bad frame, one [st.error] with that
    exception, and stops; no later frame is read and the decoder is not
    released. *)
Theorem video_error_is_loop_fatal env ui conf model up good bad rest e p :
  video_file ui = Some up ->
  start_pressed ui = true ->
  materialize up = None ->
  cap_opened (decoder up) = true ->
  cap_frames (decoder up) = good ++ bad :: rest ->
  forallb (processes env conf model) good = true ->
  failure_of env conf model bad = Some e ->
  let run := infer_uploaded_video env ui conf model p in
  run = ([EvShowUpload; EvButton BtnStart true; EvOpen TempFile; EvEmpty]
           ++ flat_map (frame_steps env conf model) good
           ++ frame_steps env conf model bad
           ++ [EvError (MsgVideoError e)], p, Ret ExitExcept) /\
  count (is_read true) (trace_of run) = S (length good) /\
  count is_slot_image (trace_of run) = length good /\
  count is_release (trace_of run) = 0.
Proof.
  intros Hup Hstart Hmat Hopen Hframes Hgood Hbad run.
  assert (Hrun : run
    = ([EvShowUpload; EvButton BtnStart true; EvOpen TempFile; EvEmpty]
         ++ flat_map (frame_steps env conf model) good
         ++ frame_steps env conf model bad
         ++ [EvError (MsgVideoError e)], p, Ret ExitExcept)).
  { subst run.
    destruct (video_run_shape env ui conf model p)
      as [(x & _ & _ & [H|H]) | [(up' & e' & H1 & _ & H2 & _) | (up' & H1 & _ & _ & E)]].
    - congruence.
    - congruence.
    - rewrite Hup in H1. inversion H1; subst up'. congruence.
    - rewrite Hup in H1. inversion H1; subst up'.
      rewrite E, Hopen, Hframes,
        (video_loop_fails env conf model good bad rest e p Hgood Hbad).
      rewrite <- !List.app_assoc. reflexivity. }
  rewrite Hrun. split; [reflexivity|].
  unfold trace_of. simpl fst.
  destruct (flat_map_counts env conf model good Hgood) as (_ & b & _ & d & _).
  pose proof (flat_map_reads env conf model good) as Hr.
  destruct (frame_steps_read env conf model bad) as [Hb1 Hb2].
  assert (Hbs : count is_slot_image (frame_steps env conf model bad) = 0).
  { unfold failure_of in Hbad. unfold frame_steps.
    destruct (cv2_resize env bad standard_size) as [image'|]; [|reflexivity].
    destruct (predict env model conf image'); [discriminate | reflexivity]. }
  repeat (rewrite count_cons || rewrite count_app).
  rewrite Hr, b, d, Hb1, Hb2, Hbs, !count_nil. simpl.
  repeat split; lia.
Qed.

(** X9: with stop not pressed, a camera whose frames all process runs to
    the first failed read: one inference call and one slot update per
    frame, then one failed read, one [release()], no error report.  A
    camera that could not be opened delivers no frame, so the run is just
    the failed read and the release. *)
Theorem webcam_runs_until_read_fails env ui conf model p :
  stop_pressed ui = false ->
  forallb (processes env conf model) (readable (camera ui)) = true ->
  let frames := readable (camera ui) in
  let run := infer_uploaded_webcam env ui conf model p in
  run = ([EvButton BtnStop false; EvOpen (Device 0); EvEmpty]
           ++ flat_map (frame_steps env conf model) frames
           ++ [EvRead false; EvRelease], p, Ret ExitBreak) /\
  count is_predict (trace_of run) = length frames /\
  count is_slot_image (trace_of run) = length frames /\
  count is_release (trace_of run) = 1 /\
  count is_error (trace_of run) = 0 /\
  (cap_opened (camera ui) = false ->
   run = ([EvButton BtnStop false; EvOpen (Device 0); EvEmpty;
           EvRead false; EvRelease], p, Ret ExitBreak)).
Proof.
  intros Hstop Hok frames run.
  assert (Hrun : run
    = ([EvButton BtnStop false; EvOpen (Device 0); EvEmpty]
         ++ flat_map (frame_steps env conf model) frames
         ++ [EvRead false; EvRelease], p, Ret ExitBreak)).
  { subst run frames. rewrite webcam_run_shape, Hstop.
    rewrite (webcam_loop_ok env conf model _ p Hok). reflexivity. }
  split; [exact Hrun|].
  destruct (flat_map_counts env conf model frames Hok) as (a & b & c & d & _).
  rewrite Hrun. unfold trace_of. simpl fst.
  repeat (rewrite count_cons || rewrite count_app).
  rewrite a, b, c, d, !count_nil. simpl.
  repeat split; try lia.
  intros Hclosed. subst frames. unfold readable. rewrite Hclosed. reflexivity.
Qed.

(** X10: an exception while a camera frame is processed ends the webcam
    loop in the same way: the frames before it are processed, the
    exception is reported once, no further frame is read and the device is
    not released. *)
Theorem webcam_error_is_loop_fatal env ui conf model good bad rest e p :
  stop_pressed ui = false ->
  readable (camera ui) = good ++ bad :: rest ->
  forallb (processes env conf model) good = true ->
  failure_of env conf model bad = Some e ->
  let run := infer_uploaded_webcam env ui conf model p in
  run = ([EvButton BtnStop false; EvOpen (Device 0); EvEmpty]
           ++ flat_map (frame_steps env conf model) good
           ++ frame_steps env conf model bad
           ++ [EvError (MsgVideoError e)], p, Ret ExitExcept) /\
  count (is_read true) (trace_of run) = S (length good) /\
  count is_slot_image (trace_of run) = length good /\
  count is_release (trace_of run) = 0.
Proof.
  intros Hstop Hframes Hgood Hbad run.
  assert (Hrun : run
    = ([EvButton BtnStop false; EvOpen (Device 0); EvEmpty]
         ++ flat_map (frame_steps env conf model) good
         ++ frame_steps env conf model bad
         ++ [EvError (MsgVideoError e)], p, Ret ExitExcept)).
  { subst run. rewrite webcam_run_shape, Hstop, Hframes.
    rewrite (webcam_loop_fails env conf model good bad rest e p Hgood Hbad).
    rewrite <- !List.app_assoc. reflexivity. }
  rewrite Hrun. split; [reflexivity|].
  unfold trace_of. simpl fst.
  destruct (flat_map_counts env conf model good Hgood) as (_ & b & _ & d & _).
  pose proof (flat_map_reads env conf model good) as Hr.
  destruct (frame_steps_read env conf model bad) as [Hb1 Hb2].
  assert (Hbs : count is_slot_image (frame_steps env conf model bad) = 0).
  { unfold failure_of in Hbad. unfold frame_steps.
    destruct (cv2_resize env bad standard_size) as [image'|]; [|reflexivity].
    destruct (predict env model conf image'); [discriminate | reflexivity]. }
  repeat (rewrite count_cons || rewrite count_app).
  rewrite Hr, b, d, Hb1, Hb2, Hbs, !count_nil. simpl.
  repeat split; lia.
Qed.

(** X11: when the upload cannot be copied to a temporary file, the video
    run reports that exception once and ends before any decoder is opened
    or any slot created. *)
Theorem video_tempfile_failure env ui conf model up e p :
  video_file ui = Some up ->
  start_pressed ui = true ->
  materialize up = Some e ->
  infer_uploaded_video env ui conf model p
  = ([EvShowUpload; EvButton BtnStart true; EvError (MsgVideoError e)],
     p, Ret ExitExcept).
Proof.
  intros Hup Hstart Hmat.
  destruct (video_run_shape env ui conf model p)
    as [(x & _ & _ & [H|H]) | [(up' & e' & H1 & _ & H2 & E) | (up' & H1 & _ & H2 & _)]].
  - congruence.
  - congruence.
  - rewrite Hup in H1. inversion H1; subst up'.
    rewrite Hmat in H2. inversion H2; subst e'. exact E.
  - rewrite Hup in H1. inversion H1; subst up'. congruence.
Qed.

(** ** Image mode *)

Lemma for_each_emit {A} (l : list A) (g : A -> Event) p :
  for_each l (fun x => emit (g x)) p = (map g l, p, Ret tt).
Proof.
  induction l as [|x l IH]; [reflexivity|].
  simpl. rewrite bind_emit_l, IH. reflexivity.
Qed.

Lemma image_run_returns env ui conf model up image res p :
  image_file ui = Some up ->
  image_open up = Ret image ->
  start_pressed ui = true ->
  predict env model conf image = Ret res ->
  infer_uploaded_image env ui conf model p
  = ([EvShowUpload; EvButton BtnStart true;
      EvPredict conf image (Ret res);
      EvResultImage (reverse_channels (plot res)); EvExpander]
       ++ map (fun box => EvWrite (MsgBox (xywh box))) (boxes res),
     p, Ret tt).
Proof.
  intros Hup Himg Hstart Hp.
  unfold infer_uploaded_image. rewrite Hup, Himg.
  rewrite bind_assoc_at, bind_lift_ret, bind_assoc_at, bind_emit_l, !bind_ret_l.
  unfold st_button. rewrite bind_assoc_at, bind_emit_l, bind_ret_l, Hstart.
  unfold lookup_var. rewrite bind_ret_l. cbv zeta.
  rewrite Hp, bind_emit_l, bind_lift_ret, bind_emit_l.
  unfold try_except. rewrite bind_emit_l, for_each_emit. reflexivity.
Qed.

(** X12: a picture that opens, the start button pressed and an inference
    that returns: the run shows the upload, calls the model once on the
    picture as opened (no resize), shows the plotted result with its
    channels reversed, opens the details panel and writes one line per
    box, in the order of the boxes; nothing is reported as an error. *)
Theorem image_success_trace env ui conf model up image res p :
  image_file ui = Some up ->
  image_open up = Ret image ->
  start_pressed ui = true ->
  predict env model conf image = Ret res ->
  let run := infer_uploaded_image env ui conf model p in
  run = ([EvShowUpload; EvButton BtnStart true;
          EvPredict conf image (Ret res);
          EvResultImage (reverse_channels (plot res)); EvExpander]
           ++ map (fun box => EvWrite (MsgBox (xywh box))) (boxes res),
         p, Ret tt) /\
  count is_predict (trace_of run) = 1 /\
  count is_write (trace_of run) = length (boxes res) /\
  count is_error (trace_of run) = 0.
Proof.
  intros Hup Himg Hstart Hp run.
  assert (Hrun : run
    = ([EvShowUpload; EvButton BtnStart true;
        EvPredict conf image (Ret res);
        EvResultImage (reverse_channels (plot res)); EvExpander]
         ++ map (fun box => EvWrite (MsgBox (xywh box))) (boxes res),
       p, Ret tt)).
  { subst run. exact (image_run_returns env ui conf model up image res p
                        Hup Himg Hstart Hp). }
  rewrite Hrun. split; [reflexivity|].
  unfold trace_of. simpl fst.
  assert (Hw : forall bs : list Box,
             count is_predict (map (fun box => EvWrite (MsgBox (xywh box))) bs) = 0
             /\ count is_write (map (fun box => EvWrite (MsgBox (xywh box))) bs)
                = length bs
             /\ count is_error (map (fun box => EvWrite (MsgBox (xywh box))) bs) = 0).
  { induction bs as [|b bs (a & b' & c)]; [repeat split|].
    simpl. rewrite !count_cons, a, b', c. repeat split. }
  destruct (Hw (boxes res)) as (a & b & c).
  rewrite !count_cons, a, b, c. repeat split.
Qed.


(** X13: a file [Image.open] rejects makes the image entry point raise
    that exception at once: the upload is not shown, the start button is
    not drawn, nothing is inferred or reported. *)
Theorem image_open_failure_escapes env ui conf model up e p :
  image_file ui = Some up ->
  image_open up = Raise e ->
  infer_uploaded_image env ui conf model p = ([], p, Raise e).
Proof.
  intros Hup Himg. unfold infer_uploaded_image, bind, lift.
  rewrite Hup, Himg. reflexivity.
Qed.

(** ** What the model is called on *)

Lemma display_predict_arg env conf model f p c img out :
  In (EvPredict c img out)
     (trace_of ((emit (EvRead true) ;;
                 _display_detected_frames env conf model f) p)) ->
  c = conf /\ out = predict env model conf img /\
  cv2_resize env f standard_size = Ret img.
Proof.
  unfold _display_detected_frames, bind, emit, lift, trace_of.
  destruct (cv2_resize env f standard_size) as [image'|e1]; simpl.
  - destruct (predict env model conf image') as [res|e2] eqn:Hp; simpl;
      intros [H|[H|H]]; try discriminate; try contradiction;
      try (inversion H; subst; rewrite Hp; repeat split; reflexivity).
    destruct H as [H|H]; [discriminate | contradiction].
  - intros [H|H]; [discriminate | contradiction].
Qed.

Lemma video_loop_predict_arg env conf model opened frames p c img out :
  In (EvPredict c img out)
     (trace_of (video_loop env conf model opened frames p)) ->
  c = conf /\ out = predict env model conf img /\
  exists f, In f frames /\ cv2_resize env f standard_size = Ret img.
Proof.
  destruct opened; [|rewrite video_loop_closed; intros []].
  revert p. induction frames as [|f frames IH]; intros p.
  - simpl. intros [H|[H|H]]; try discriminate; contradiction.
  - rewrite video_loop_cons.
    pose proof (display_predict_arg env conf model f p c img out) as Hd.
    unfold trace_of in *.
    destruct ((emit (EvRead true) ;; _display_detected_frames env conf model f) p)
      as [[t1 p1] [u|e]]; simpl in Hd.
    + specialize (IH p1).
      destruct (video_loop env conf model true frames p1) as [[t2 p2] r].
      simpl in *. intros Hin. apply List.in_app_or in Hin as [Hin|Hin].
      * destruct (Hd Hin) as (a & b & d). repeat split; try assumption.
        exists f. split; [left; reflexivity | exact d].
      * destruct (IH Hin) as (a & b & f' & Hf' & d).
        repeat split; try assumption.
        exists f'. split; [right; exact Hf' | exact d].
    + simpl. intros Hin. destruct (Hd Hin) as (a & b & d).
      repeat split; try assumption.
      exists f. split; [left; reflexivity | exact d].
Qed.

Lemma webcam_loop_predict_arg env conf model flag frames p c img out :
  In (EvPredict c img out)
     (trace_of (webcam_loop env conf model flag frames p)) ->
  c = conf /\ out = predict env model conf img /\
  exists f, In f frames /\ cv2_resize env f standard_size = Ret img.
Proof.
  destruct flag; [rewrite webcam_loop_stopped; intros []|].
  revert p. induction frames as [|f frames IH]; intros p.
  - simpl. intros [H|[H|H]]; try discriminate; contradiction.
  - rewrite webcam_loop_cons.
    pose proof (display_predict_arg env conf model f p c img out) as Hd.
    unfold trace_of in *.
    destruct ((emit (EvRead true) ;; _display_detected_frames env conf model f) p)
      as [[t1 p1] [u|e]]; simpl in Hd.
    + specialize (IH p1).
      destruct (webcam_loop env conf model false frames p1) as [[t2 p2] r].
      simpl in *. intros Hin. apply List.in_app_or in Hin as [Hin|Hin].
      * destruct (Hd Hin) as (a & b & d). repeat split; try assumption.
        exists f. split; [left; reflexivity | exact d].
      * destruct (IH Hin) as (a & b & f' & Hf' & d).
        repeat split; try assumption.
        exists f'. split; [right; exact Hf' | exact d].
    + simpl. intros Hin. destruct (Hd Hin) as (a & b & d).
      repeat split; try assumption.
      exists f. split; [left; reflexivity | exact d].
Qed.

(** X14: whatever the video or webcam run does, every inference call it
    makes is on a frame of the source resized to 720 by 405, with the
    threshold it was given, and the outcome logged is what the model
    answers to exactly that call. *)
Theorem inference_sees_resized_frames env ui conf model p c img out :
  (In (EvPredict c img out)
      (trace_of (infer_uploaded_video env ui conf model p)) ->
   c = conf /\ out = predict env model conf img /\
   exists up f, video_file ui = Some up /\ In f (cap_frames (decoder up)) /\
                cv2_resize env f (720, 405)%Z = Ret img) /\
  (In (EvPredict c img out)
      (trace_of (infer_uploaded_webcam env ui conf model p)) ->
   c = conf /\ out = predict env model conf img /\
   exists f, In f (cap_frames (camera ui)) /\
             cv2_resize env f (720, 405)%Z = Ret img).
Proof.
  split.
  - destruct (video_run_shape env ui conf model p)
      as [(x & E & _) | [(up & e & _ & _ & _ & E) | (up & Hup & _ & _ & E)]].
    + rewrite E. unfold trace_of. simpl fst.
      destruct (video_file ui); simpl; intros H;
        repeat (destruct H as [H|H]; try discriminate); contradiction.
    + rewrite E. unfold trace_of. simpl.
      intros H. repeat (destruct H as [H|H]; try discriminate). contradiction.
    + rewrite E.
      pose proof (video_loop_predict_arg env conf model
                    (cap_opened (decoder up)) (cap_frames (decoder up)) p
                    c img out) as Hl.
      unfold trace_of in *.
      destruct (video_loop env conf model (cap_opened (decoder up))
                  (cap_frames (decoder up)) p) as [[t q] [x|e]]; simpl in *.
      * intros H. repeat (destruct H as [H|H]; try discriminate).
        destruct (Hl H) as (a & b & f & Hf & d). repeat split; try assumption.
        exists up, f. repeat split; assumption.
      * intros H. repeat (destruct H as [H|H]; try discriminate).
        apply List.in_app_or in H as [H|H].
        -- destruct (Hl H) as (a & b & f & Hf & d).
           repeat split; try assumption.
           exists up, f. repeat split; assumption.
        -- destruct H as [H|H]; [discriminate | contradiction].
  - rewrite webcam_run_shape.
    pose proof (webcam_loop_predict_arg env conf model (stop_pressed ui)
                  (readable (camera ui)) p c img out) as Hl.
    assert (Hsub : forall f, In f (readable (camera ui)) ->
                             In f (cap_frames (camera ui))).
    { unfold readable. destruct (cap_opened (camera ui)); [auto | intros ? []]. }
    unfold trace_of in *.
    destruct (webcam_loop env conf model (stop_pressed ui)
                (readable (camera ui)) p) as [[t q] [x|e]]; simpl in *.
    + intros H. repeat (destruct H as [H|H]; try discriminate).
      destruct (Hl H) as (a & b & f & Hf & d). repeat split; try assumption.
      exists f. split; [apply Hsub; exact Hf | exact d].
    + intros H. repeat (destruct H as [H|H]; try discriminate).
      apply List.in_app_or in H as [H|H].
      * destruct (Hl H) as (a & b & f & Hf & d). repeat split; try assumption.
        exists f. split; [apply Hsub; exact Hf | exact d].
      * destruct H as [H|H]; [discriminate | contradiction].
Qed.

(** ** The dispatch *)

Lemma load_step_cases env path p :
  exists t q m,
    load_step env path p = (t, q, Ret m) /\
    Forall (fun e => is_yolo e = true \/ is_load_error e = true) t /\
    (m = None -> exists e, YOLO env path = Some e /\ cache p !! path = None).
Proof.
  destruct (cache p !! path) as [h|] eqn:Hc.
  - exists [], p, (Some h). rewrite (load_step_hit env path p h Hc).
    split; [reflexivity|]. split; [constructor | discriminate].
  - destruct (YOLO env path) as [e|] eqn:Hy.
    + exists [EvYOLO path false; EvError (MsgLoadModel path)], p, None.
      rewrite (load_step_fail env path p e Hc Hy).
      split; [reflexivity|]. split.
      * constructor; [left; reflexivity|].
        constructor; [right; reflexivity | constructor].
      * intros _. exists e. split; reflexivity.
    + rewrite (load_step_fresh env path p Hc Hy).
      do 3 eexists. split; [reflexivity|]. split.
      * constructor; [left; reflexivity | constructor].
      * discriminate.
Qed.

Lemma load_kind_counts (t : Trace) :
  Forall (fun e => is_yolo e = true \/ is_load_error e = true) t ->
  count is_predict t = 0 /\ count is_open t = 0.
Proof.
  intros H. split; apply count_zero_Forall;
    (eapply List.Forall_impl; [|exact H]);
    intros [] [He|He]; simpl in *; try discriminate; reflexivity.
Qed.

Lemma prelude_counts ui :
  count is_predict (prelude_trace ui) = 0 /\ count is_open (prelude_trace ui) = 0.
Proof.
  unfold prelude_trace.
  destruct (String.eqb (task_type ui) "检测"); simpl;
    [destruct (truthy (model_choice ui))|]; split; reflexivity.
Qed.

Lemma dispatch_unknown cfg env ui model p s0 s1 s2 :
  nth_error (SOURCES_LIST cfg) 0 = Some s0 ->
  nth_error (SOURCES_LIST cfg) 1 = Some s1 ->
  nth_error (SOURCES_LIST cfg) 2 = Some s2 ->
  py_eq (source_choice ui) s0 = false ->
  py_eq (source_choice ui) s1 = false ->
  py_eq (source_choice ui) s2 = false ->
  dispatch cfg env ui model p = ([EvError MsgOnlyImageVideo], p, Ret tt).
Proof.
  intros H0 H1 H2 E0 E1 E2. unfold dispatch, index. cbv zeta.
  rewrite H0, bind_ret_l, E0, H1, bind_ret_l, E1, H2, bind_ret_l, E2.
  reflexivity.
Qed.

(** X16: a selection that is none of the first three configured sources
    ends the run quietly, whether or not the model could be loaded: the
    last thing shown is the report that only image and video are
    implemented, no capture is opened, nothing is inferred, and the script
    returns without an exception. *)
Theorem unknown_source_ends_quietly cfg env ui p bg s0 s1 s2 :
  background_image ui = Ret bg ->
  nth_error (SOURCES_LIST cfg) 0 = Some s0 ->
  nth_error (SOURCES_LIST cfg) 1 = Some s1 ->
  nth_error (SOURCES_LIST cfg) 2 = Some s2 ->
  py_eq (source_choice ui) s0 = false ->
  py_eq (source_choice ui) s1 = false ->
  py_eq (source_choice ui) s2 = false ->
  let run := app cfg env ui p in
  result_of run = Ret tt /\
  (exists t, trace_of run = t ++ [EvError MsgOnlyImageVideo]) /\
  count is_predict (trace_of run) = 0 /\
  count is_open (trace_of run) = 0.
Proof.
  intros Hbg H0 H1 H2 E0 E1 E2 run. subst run.
  rewrite (app_decompose cfg env ui bg p Hbg). unfold app_body, bind.
  destruct (load_step_cases env (model_path_of cfg ui) p)
    as (t & q & m & El & Hk & _).
  rewrite El, (dispatch_unknown cfg env ui m q s0 s1 s2 H0 H1 H2 E0 E1 E2).
  unfold result_of, trace_of. simpl.
  destruct (load_kind_counts t Hk) as [a b].
  destruct (prelude_counts ui) as [c d].
  split; [reflexivity|]. split.
  - exists (prelude_trace ui ++ t). rewrite List.app_assoc. reflexivity.
  - rewrite !count_app, a, b, c, d. split; reflexivity.
Qed.

Lemma dispatch_selected cfg env ui model p :
  dispatch cfg env ui model p
  = match selected_source cfg ui with
    | Raise e => ([], p, Raise e)
    | Ret None => ([EvError MsgOnlyImageVideo], p, Ret tt)
    | Ret (Some i) =>
        match model with
        | Some h => entry_point env ui h i p
        | None => ([], p, Raise (NameError "model"))
        end
    end.
Proof.
  unfold dispatch, selected_source, index, lookup_var. cbv zeta.
  destruct (nth_error (SOURCES_LIST cfg) 0) as [s0|]; [|reflexivity].
  rewrite bind_ret_l.
  destruct (py_eq (source_choice ui) s0).
  { destruct model; [rewrite bind_ret_l|]; reflexivity. }
  destruct (nth_error (SOURCES_LIST cfg) 1) as [s1|]; [|reflexivity].
  rewrite bind_ret_l.
  destruct (py_eq (source_choice ui) s1).
  { destruct model; [rewrite bind_ret_l|]; reflexivity. }
  destruct (nth_error (SOURCES_LIST cfg) 2) as [s2|]; [|reflexivity].
  rewrite bind_ret_l.
  destruct (py_eq (source_choice ui) s2); [|reflexivity].
  destruct model; [rewrite bind_ret_l|]; reflexivity.
Qed.

(** X17: a source list of fewer than three entries, none of which is the
    selection, makes the script raise [IndexError] after the load step:
    no capture is opened and nothing is inferred. *)
Theorem short_sources_list_raises cfg env ui p bg :
  background_image ui = Ret bg ->
  length (SOURCES_LIST cfg) < 3 ->
  (forall s, In s (SOURCES_LIST cfg) -> py_eq (source_choice ui) s = false) ->
  let run := app cfg env ui p in
  result_of run = Raise IndexError /\
  count is_predict (trace_of run) = 0 /\
  count is_open (trace_of run) = 0.
Proof.
  intros Hbg Hlen Hno run. subst run.
  assert (Hsel : selected_source cfg ui = Raise IndexError).
  { unfold selected_source.
    destruct (SOURCES_LIST cfg) as [|a [|b [|c l]]]; simpl in *.
    - reflexivity.
    - rewrite (Hno a) by auto. reflexivity.
    - rewrite (Hno a), (Hno b) by auto. reflexivity.
    - lia. }
  rewrite (app_decompose cfg env ui bg p Hbg). unfold app_body, bind.
  destruct (load_step_cases env (model_path_of cfg ui) p)
    as (t & q & m & El & Hk & _).
  rewrite El, dispatch_selected, Hsel.
  unfold result_of, trace_of. simpl.
  destruct (load_kind_counts t Hk) as [a b].
  destruct (prelude_counts ui) as [c d].
  rewrite !count_app, a, b, c, d. repeat split.
Qed.

(** X18: when the weights cannot be loaded and the selection is one of the
    first three sources, the script dies on the unbound name [model]: it
    raises [NameError] before the entry point draws anything, so the run
    ends with the load report as its last event. *)
Theorem failed_load_crashes_on_use cfg env ui p bg e i :
  background_image ui = Ret bg ->
  cache p !! model_path_of cfg ui = None ->
  YOLO env (model_path_of cfg ui) = Some e ->
  selected_source cfg ui = Ret (Some i) ->
  app cfg env ui p
  = (prelude_trace ui
       ++ [EvYOLO (model_path_of cfg ui) false;
           EvError (MsgLoadModel (model_path_of cfg ui))],
     p, Raise (NameError "model")).
Proof.
  intros Hbg Hc Hy Hsel.
  rewrite (app_decompose cfg env ui bg p Hbg). unfold app_body, bind.
  rewrite (load_step_fail env _ p e Hc Hy), dispatch_selected, Hsel.
  rewrite List.app_nil_r. reflexivity.
Qed.

(** X19: with the model at hand, the script is its prelude reports, the
    load step and then exactly the entry point of the first configured
    source that equals the selection: image before video before webcam,
    also when the list names a source twice. *)
Theorem app_runs_selected_entry_point cfg env ui p bg h i :
  background_image ui = Ret bg ->
  result_of (load_model env (model_path_of cfg ui) p) = Ret h ->
  selected_source cfg ui = Ret (Some i) ->
  let lm := load_model env (model_path_of cfg ui) p in
  app cfg env ui p
  = match entry_point env ui h i (proc_of lm) with
    | (t, q, r) => (prelude_trace ui ++ trace_of lm ++ t, q, r)
    end.
Proof.
  intros Hbg Hl Hsel lm.
  rewrite (app_decompose cfg env ui bg p Hbg). unfold app_body, bind.
  assert (Els : load_step env (model_path_of cfg ui) p
                = (trace_of lm, proc_of lm, Ret (Some h))).
  { subst lm. unfold load_step, try_except, bind, ret.
    unfold result_of, trace_of, proc_of in *.
    destruct (load_model env (model_path_of cfg ui) p) as [[t q] r].
    simpl in *. subst r. rewrite List.app_nil_r. reflexivity. }
  rewrite Els, dispatch_selected, Hsel.
  destruct (entry_point env ui h i (proc_of lm)) as [[t q] r]. reflexivity.
Qed.

(** X20: with no model selected the script does not stop: it reports that
    a model must be selected and then hands the empty path to
    [load_model], so the loader is asked to read weights from nowhere
    unless that path is already cached. *)
Theorem no_model_selected_loads_empty_path cfg env ui p bg :
  background_image ui = Ret bg ->
  truthy (model_choice ui) = false ->
  let run := app cfg env ui p in
  model_path_of cfg ui = EmptyString /\
  In (EvError MsgSelectModel) (trace_of run) /\
  (cache p !! EmptyString = None ->
   exists ok, In (EvYOLO EmptyString ok) (trace_of run)).
Proof.
  intros Hbg Hm run. subst run.
  assert (Hpath : model_path_of cfg ui = EmptyString).
  { unfold model_path_of. rewrite Hm, andb_false_r. reflexivity. }
  split; [exact Hpath|].
  rewrite (app_decompose cfg env ui bg p Hbg).
  unfold trace_of.
  destruct (app_body cfg env ui p) as [[t q] r] eqn:Eb. simpl fst.
  split.
  - apply List.in_or_app. left. unfold prelude_trace.
    rewrite Hm, andb_false_r. apply List.in_or_app. right. left. reflexivity.
  - intros Hc.
    assert (Hy : trace_of (load_model env EmptyString p)
                 = List.filter is_yolo t).
    { pose proof (app_body_yolo cfg env ui p) as H.
      rewrite Eb, Hpath in H. unfold trace_of in *. simpl in H.
      symmetry. exact H. }
    unfold load_model, trace_of in Hy. rewrite Hc in Hy.
    destruct (YOLO env EmptyString); simpl in Hy.
    + exists false. apply List.in_or_app. right.
      assert (Hin : In (EvYOLO EmptyString false) (List.filter is_yolo t)).
      { rewrite <- Hy. left. reflexivity. }
      apply List.filter_In in Hin. exact (proj1 Hin).
    + exists true. apply List.in_or_app. right.
      assert (Hin : In (EvYOLO EmptyString true) (List.filter is_yolo t)).
      { rewrite <- Hy. left. reflexivity. }
      apply List.filter_In in Hin. exact (proj1 Hin).
Qed.

(** ** The background image *)

(** The test vectors of RFC 4648, section 10. *)
Lemma b64encode_rfc4648_vectors :
  b64encode [] = EmptyString /\
  b64encode [Byte.x66] = "Zg==" /\
  b64encode [Byte.x66; Byte.x6f] = "Zm8=" /\
  b64encode [Byte.x66; Byte.x6f; Byte.x6f] = "Zm9v" /\
  b64encode [Byte.x66; Byte.x6f; Byte.x6f; Byte.x62] = "Zm9vYg==" /\
  b64encode [Byte.x66; Byte.x6f; Byte.x6f; Byte.x62; Byte.x61] = "Zm9vYmE=" /\
  b64encode [Byte.x66; Byte.x6f; Byte.x6f; Byte.x62; Byte.x61; Byte.x72]
  = "Zm9vYmFy".
Proof. repeat split. Qed.

Lemma sextet_roundtrip (s : sextet) : b64_sextet (b64_char s) = Some s.
Proof.
  destruct s as [[[[[[] []] []] []] []] []]; reflexivity.
Qed.

Lemma b64_char_not_pad (s : sextet) : Ascii.eqb (b64_char s) b64_pad = false.
Proof.
  destruct s as [[[[[[] []] []] []] []] []]; reflexivity.
Qed.

Lemma b64_char_safe (s : sextet) : b64_safe (b64_char s) = true.
Proof.
  destruct s as [[[[[[] []] []] []] []] []]; reflexivity.
Qed.

Lemma bytes_regroup a b c s0 s1 s2 s3 :
  group3 a b c = (s0, s1, s2, s3) ->
  byte1 s0 s1 = a /\ byte2 s1 s2 = b /\ byte3 s2 s3 = c.
Proof.
  unfold group3.
  destruct (Byte.to_bits a) as [a0 [a1 [a2 [a3 [a4 [a5 [a6 a7]]]]]]] eqn:Ea.
  destruct (Byte.to_bits b) as [b0 [b1 [b2 [b3 [b4 [b5 [b6 b7]]]]]]] eqn:Eb.
  destruct (Byte.to_bits c) as [c0 [c1 [c2 [c3 [c4 [c5 [c6 c7]]]]]]] eqn:Ec.
  intros H. inversion H; subst; clear H. unfold byte1, byte2, byte3.
  rewrite <- Ea, <- Eb, <- Ec, !Byte.of_bits_to_bits. repeat split.
Qed.

Lemma by_threes {A} (P : list A -> Prop) :
  P [] -> (forall a, P [a]) -> (forall a b, P [a; b]) ->
  (forall a b c rest, P rest -> P (a :: b :: c :: rest)) ->
  forall l, P l.
Proof.
  intros H0 H1 H2 H3 l.
  cut (P l /\ (forall a, P (a :: l)) /\ (forall a b, P (a :: b :: l))).
  { intros [H _]. exact H. }
  induction l as [|x l (IH0 & IH1 & IH2)].
  - repeat split; auto.
  - repeat split; auto.
Qed.

Lemma b64decode_quad c0 c1 c2 c3 rest :
  b64decode (String c0 (String c1 (String c2 (String c3 rest))))
  = match b64_sextet c0, b64_sextet c1 with
    | Some s0, Some s1 =>
        if Ascii.eqb c2 b64_pad then
          match rest with
          | EmptyString =>
              if Ascii.eqb c3 b64_pad then Some [byte1 s0 s1] else None
          | _ => None
          end
        else
          match b64_sextet c2 with
          | Some s2 =>
              if Ascii.eqb c3 b64_pad then
                match rest with
                | EmptyString => Some [byte1 s0 s1; byte2 s1 s2]
                | _ => None
                end
              else
                match b64_sextet c3 with
                | Some s3 =>
                    option_map
                      (fun l => byte1 s0 s1 :: byte2 s1 s2 :: byte3 s2 s3 :: l)
                      (b64decode rest)
                | None => None
                end
          | None => None
          end
    | _, _ => None
    end.
Proof. reflexivity. Qed.

Lemma b64_roundtrip (data : list Byte.byte) :
  b64decode (b64encode data) = Some data.
Proof.
  induction data as [|a|a b|a b c rest IH] using by_threes.
  - reflexivity.
  - cbn [b64encode].
    destruct (group3 a Byte.x00 Byte.x00) as [[[s0 s1] s2] s3] eqn:Eg.
    destruct (bytes_regroup _ _ _ _ _ _ _ Eg) as (Ha & _ & _).
    rewrite b64decode_quad, !sextet_roundtrip.
    change (Ascii.eqb b64_pad b64_pad) with true. cbv iota.
    rewrite Ha. reflexivity.
  - cbn [b64encode].
    destruct (group3 a b Byte.x00) as [[[s0 s1] s2] s3] eqn:Eg.
    destruct (bytes_regroup _ _ _ _ _ _ _ Eg) as (Ha & Hb & _).
    rewrite b64decode_quad, !sextet_roundtrip, b64_char_not_pad.
    change (Ascii.eqb b64_pad b64_pad) with true. cbv iota.
    rewrite Ha, Hb. reflexivity.
  - cbn [b64encode].
    destruct (group3 a b c) as [[[s0 s1] s2] s3] eqn:Eg.
    destruct (bytes_regroup _ _ _ _ _ _ _ Eg) as (Ha & Hb & Hc).
    rewrite b64decode_quad, !sextet_roundtrip, !b64_char_not_pad, IH.
    simpl option_map. rewrite Ha, Hb, Hc. reflexivity.
Qed.

Lemma b64encode_length (data : list Byte.byte) :
  String.length (b64encode data) = 4 * ((length data + 2) / 3).
Proof.
  induction data as [|a|a b|a b c rest IH] using by_threes.
  - reflexivity.
  - cbn [b64encode].
    destruct (group3 a Byte.x00 Byte.x00) as [[[s0 s1] s2] s3]. reflexivity.
  - cbn [b64encode].
    destruct (group3 a b Byte.x00) as [[[s0 s1] s2] s3]. reflexivity.
  - cbn [b64encode].
    destruct (group3 a b c) as [[[s0 s1] s2] s3].
    cbn [String.length length]. rewrite IH.
    replace (S (S (S (length rest))) + 2) with (length rest + 2 + 1 * 3) by lia.
    rewrite Nat.div_add by lia. lia.
Qed.

Lemma b64encode_safe (data : list Byte.byte) (c : ascii) :
  In c (list_ascii_of_string (b64encode data)) -> b64_safe c = true.
Proof.
  induction data as [|a|a b|a b c' rest IH] using by_threes.
  - intros [].
  - cbn [b64encode].
    destruct (group3 a Byte.x00 Byte.x00) as [[[s0 s1] s2] s3].
    cbn [list_ascii_of_string].
    intros [H|[H|[H|[H|[]]]]]; subst; auto using b64_char_safe.
  - cbn [b64encode].
    destruct (group3 a b Byte.x00) as [[[s0 s1] s2] s3].
    cbn [list_ascii_of_string].
    intros [H|[H|[H|[H|[]]]]]; subst; auto using b64_char_safe.
  - cbn [b64encode].
    destruct (group3 a b c') as [[[s0 s1] s2] s3].
    cbn [list_ascii_of_string].
    intros [H|[H|[H|[H|H]]]]; subst; auto using b64_char_safe.
Qed.

(** X21: what [get_image_base64] returns can be decoded back to exactly
    the bytes of the file: the page receives the image unaltered, and two
    files with the same encoding are the same file. *)
Theorem background_encoding_lossless fs path s :
  get_image_base64 fs path = Ret s ->
  exists data,
    fs path = Ret data /\ b64decode s = Some data /\
    (forall data', b64encode data' = s -> data' = data).
Proof.
  unfold get_image_base64. destruct (fs path) as [data|e]; [|discriminate].
  intros H. inversion H; subst s. exists data.
  split; [reflexivity|]. split; [apply b64_roundtrip|].
  intros data' E.
  pose proof (b64_roundtrip data') as R. rewrite E, b64_roundtrip in R.
  inversion R. reflexivity.
Qed.

Lemma background_encoding_lossless_witness :
  exists data,
    sample_fs background_path = Ret data /\
    b64decode "TWFu" = Some data /\
    (forall data', b64encode data' = "TWFu" -> data' = data).
Proof.
  apply (background_encoding_lossless sample_fs background_path "TWFu").
  reflexivity.
Defined.

(** X22: the string [get_image_base64] returns has four characters for
    every three bytes of the file, rounded up, and consists of letters,
    digits, plus, slash and the padding sign only: in particular it holds
    no double quote, closing parenthesis or backslash that could end the
    quoted CSS url it is pasted into. *)
Theorem background_encoding_shape fs path s :
  get_image_base64 fs path = Ret s ->
  exists data,
    fs path = Ret data /\
    String.length s = 4 * ((length data + 2) / 3) /\
    forall c, In c (list_ascii_of_string s) ->
              b64_safe c = true /\
              c <> ascii_of_nat 34 /\ c <> ascii_of_nat 41 /\
              c <> ascii_of_nat 92.
Proof.
  unfold get_image_base64. destruct (fs path) as [data|e]; [|discriminate].
  intros H. inversion H; subst s. exists data.
  split; [reflexivity|]. split; [apply b64encode_length|].
  intros c Hc. pose proof (b64encode_safe data c Hc) as Hs.
  split; [exact Hs|].
  repeat split; intros ->; vm_compute in Hs; discriminate Hs.
Qed.

Lemma background_encoding_shape_witness :
  exists data,
    sample_fs background_path = Ret data /\
    String.length "TWFu" = 4 * ((length data + 2) / 3) /\
    forall c, In c (list_ascii_of_string "TWFu") ->
              b64_safe c = true /\
              c <> ascii_of_nat 34 /\ c <> ascii_of_nat 41 /\
              c <> ascii_of_nat 92.
Proof.
  apply (background_encoding_shape sample_fs background_path "TWFu").
  reflexivity.
Defined.

(** X23: when the background image cannot be read, [get_image_base64]
    raises the exception of the file system, and a run of the script that
    starts with it ends there: nothing is shown, loaded or changed. *)
Theorem missing_background_stops_script cfg env ui fs e p :
  fs background_path = Raise e ->
  background_image ui = get_image_base64 fs background_path ->
  get_image_base64 fs background_path = Raise e /\
  app cfg env ui p = ([], p, Raise e).
Proof.
  intros Hfs Hbg.
  assert (Hg : get_image_base64 fs background_path = Raise e).
  { unfold get_image_base64. rewrite Hfs. reflexivity. }
  split; [exact Hg|].
  unfold app, bind, lift. rewrite Hbg, Hg. reflexivity.
Qed.

Lemma missing_background_stops_script_witness :
  app sample_config stub_env
    (with_background base_inputs (get_image_base64 empty_fs background_path))
    fresh_process
  = ([], fresh_process, Raise (OSError "No such file or directory")).
Proof.
  apply (missing_background_stops_script sample_config stub_env
           (with_background base_inputs
              (get_image_base64 empty_fs background_path))
           empty_fs (OSError "No such file or directory") fresh_process).
  - reflexivity.
  - reflexivity.
Defined.

(** ** Concrete runs *)

Lemma rerun_reuses_model_witness :
  let p1 := proc_of (app sample_config stub_env base_inputs fresh_process) in
  count is_yolo
    (trace_of (app sample_config missing_weights_env
                 (with_video base_inputs ten_frame_video true) p1)) = 0.
Proof.
  apply (rerun_reuses_model sample_config stub_env base_inputs
           missing_weights_env (with_video base_inputs ten_frame_video true)
           fresh_process "aGVsbG8=").
  - reflexivity.
  - reflexivity.
  - reflexivity.
Defined.

Lemma run_touches_only_selected_path_witness :
  cache (proc_of (app sample_config stub_env base_inputs fresh_process))
    !! "weights/yolov8s.pt"
  = cache fresh_process !! "weights/yolov8s.pt".
Proof.
  apply (run_touches_only_selected_path sample_config stub_env base_inputs
           fresh_process "weights/yolov8s.pt").
  vm_compute. discriminate.
Defined.

Lemma session_handles_distinct_witness :
  hpath {| hid := 0; hpath := "weights/yolov8n.pt" |} = "weights/yolov8n.pt".
Proof.
  apply (session_handles_distinct sample_config
           [(stub_env, base_inputs);
            (stub_env, with_model base_inputs (Some "yolov8s.pt"))]
           "weights/yolov8n.pt" "weights/yolov8s.pt"
           {| hid := 0; hpath := "weights/yolov8n.pt" |}
           {| hid := 1; hpath := "weights/yolov8s.pt" |}).
  - vm_compute. reflexivity.
  - vm_compute. reflexivity.
Defined.

Lemma video_error_is_loop_fatal_witness :
  let run :=
    infer_uploaded_video third_frame_fails_env
      (with_video base_inputs four_frame_video true) (1 # 2)
      sample_model fresh_process in
  count (is_read true) (trace_of run) = 3 /\
  count is_slot_image (trace_of run) = 2 /\
  count is_release (trace_of run) = 0.
Proof.
  pose proof (video_error_is_loop_fatal third_frame_fails_env
                (with_video base_inputs four_frame_video true) (1 # 2)
                sample_model four_frame_video
                [hd_frame 0; hd_frame 1] (hd_frame 2) [hd_frame 3]
                (ModelError "malformed input") fresh_process
                eq_refl eq_refl eq_refl eq_refl eq_refl eq_refl eq_refl) as H.
  simpl in H. destruct H as (_ & H). exact H.
Defined.

Lemma webcam_runs_until_read_fails_witness :
  let run :=
    infer_uploaded_webcam stub_env
      (with_camera base_inputs four_frame_camera false) (1 # 2)
      sample_model fresh_process in
  count is_predict (trace_of run) = 4 /\
  count is_release (trace_of run) = 1.
Proof.
  pose proof (webcam_runs_until_read_fails stub_env
                (with_camera base_inputs four_frame_camera false) (1 # 2)
                sample_model fresh_process eq_refl eq_refl) as H.
  simpl in H. destruct H as (_ & a & _ & b & _).
  split; [exact a | exact b].
Defined.

Lemma webcam_error_is_loop_fatal_witness :
  let run :=
    infer_uploaded_webcam third_frame_fails_env
      (with_camera base_inputs four_frame_camera false) (1 # 2)
      sample_model fresh_process in
  count (is_read true) (trace_of run) = 3 /\
  count is_slot_image (trace_of run) = 2 /\
  count is_release (trace_of run) = 0.
Proof.
  pose proof (webcam_error_is_loop_fatal third_frame_fails_env
                (with_camera base_inputs four_frame_camera false) (1 # 2)
                sample_model
                [hd_frame 0; hd_frame 1] (hd_frame 2) [hd_frame 3]
                (ModelError "malformed input") fresh_process
                eq_refl eq_refl eq_refl eq_refl) as H.
  simpl in H. destruct H as (_ & H). exact H.
Defined.

Lemma video_tempfile_failure_witness :
  infer_uploaded_video stub_env
    (with_video base_inputs unwritable_video true) (1 # 2)
    sample_model fresh_process
  = ([EvShowUpload; EvButton BtnStart true;
      EvError (MsgVideoError (OSError "No space left on device"))],
     fresh_process, Ret ExitExcept).
Proof.
  apply (video_tempfile_failure stub_env
           (with_video base_inputs unwritable_video true) (1 # 2)
           sample_model unwritable_video
           (OSError "No space left on device") fresh_process).
  - reflexivity.
  - reflexivity.
  - reflexivity.
Defined.

Lemma image_success_trace_witness :
  let run :=
    infer_uploaded_image filtering_env
      (with_image base_inputs sample_image true) (1 # 2)
      sample_model fresh_process in
  count is_predict (trace_of run) = 1 /\
  count is_write (trace_of run) = 2 /\
  count is_error (trace_of run) = 0.
Proof.
  pose proof (image_success_trace filtering_env
                (with_image base_inputs sample_image true) (1 # 2)
                sample_model sample_image _ _ fresh_process
                eq_refl eq_refl eq_refl eq_refl) as H.
  simpl in H. destruct H as (_ & H). exact H.
Defined.

Lemma inference_sees_resized_frames_witness :
  exists up f,
    video_file (with_video base_inputs one_frame_video true) = Some up /\
    In f (cap_frames (decoder up)) /\
    cv2_resize stub_env f (720, 405)%Z
    = Ret {| fwidth := 720; fheight := 405; fchannels := BGR; fcontent := 0 |}.
Proof.
  apply (inference_sees_resized_frames stub_env
           (with_video base_inputs one_frame_video true) (1 # 2)
           sample_model fresh_process (1 # 2)
           {| fwidth := 720; fheight := 405; fchannels := BGR; fcontent := 0 |}
           (Ret {| boxes := [];
                   plot := {| fwidth := 720; fheight := 405;
                              fchannels := BGR; fcontent := 0 |} |})).
  vm_compute. do 5 right. left. reflexivity.
Defined.

Lemma unknown_source_ends_quietly_witness :
  result_of (app sample_config missing_weights_env
               (with_source base_inputs "audio") fresh_process)
  = Ret tt.
Proof.
  apply (unknown_source_ends_quietly sample_config missing_weights_env
           (with_source base_inputs "audio") fresh_process "aGVsbG8="
           "image" "video" "webcam");
    reflexivity.
Defined.

Lemma short_sources_list_raises_witness :
  result_of (app image_only_config stub_env base_inputs fresh_process)
  = Raise IndexError.
Proof.
  apply (short_sources_list_raises image_only_config stub_env base_inputs
           fresh_process "aGVsbG8=").
  - reflexivity.
  - simpl. lia.
  - intros s [<-|[]]. reflexivity.
Defined.

Lemma failed_load_crashes_on_use_witness :
  result_of (app sample_config missing_weights_env base_inputs fresh_process)
  = Raise (NameError "model").
Proof.
  rewrite (failed_load_crashes_on_use sample_config missing_weights_env
             base_inputs fresh_process "aGVsbG8="
             (OSError "No such file or directory") 1
             eq_refl eq_refl eq_refl eq_refl).
  reflexivity.
Defined.

Lemma app_runs_selected_entry_point_witness :
  app sample_config stub_env
    (with_video base_inputs ten_frame_video false) fresh_process
  = ([EvYOLO "weights/yolov8n.pt" true; EvShowUpload;
      EvButton BtnStart false],
     proc_of (load_model stub_env "weights/yolov8n.pt" fresh_process),
     Ret tt).
Proof.
  rewrite (app_runs_selected_entry_point sample_config stub_env
             (with_video base_inputs ten_frame_video false) fresh_process
             "aGVsbG8=" {| hid := 0; hpath := "weights/yolov8n.pt" |} 1
             eq_refl eq_refl eq_refl).
  reflexivity.
Defined.

Lemma no_model_selected_loads_empty_path_witness :
  In (EvError MsgSelectModel)
     (trace_of (app sample_config stub_env (with_model base_inputs None)
                  fresh_process)).
Proof.
  apply (no_model_selected_loads_empty_path sample_config stub_env
           (with_model base_inputs None) fresh_process "aGVsbG8=").
  - reflexivity.
  - reflexivity.
Defined.

(** ** The threshold of a run *)

Lemma slider_answers_cover (s : Z) :
  (slider_min <= s <= slider_max)%Z -> In s slider_answers.
Proof.
  unfold slider_min, slider_max, slider_answers. intros H.
  apply List.in_map_iff. exists (Z.to_nat (s - 30)).
  split; [unfold slider_min; lia|]. apply List.in_seq. lia.
Qed.

Lemma confidence_checked_in_range (s : Z) :
  (slider_min <= s <= slider_max)%Z -> confidence_checked s = true.
Proof.
  intros H. apply slider_answers_cover in H.
  assert (Hall : forallb confidence_checked slider_answers = true)
    by (vm_compute; reflexivity).
  exact (proj1 (forallb_forall _ _) Hall s H).
Qed.

(** C9 (as amended): the slider answers an integer s between the bounds 30
    and 100 it was given; the threshold is [float(s) / 100], the double
    nearest to s/100: within 2^-54 of s/100, between the doubles written
    0.30 and 1.00, and it is the threshold of every inference call of the
    run, whichever source is selected. *)
Theorem confidence_is_nearest_double cfg env ui p :
  slider_in_range ui ->
  (confidence ui == round_binary64 (slider ui # 100))%Q /\
  (Qabs (confidence ui - (slider ui # 100)) <= 1 # 18014398509481984)%Q /\
  (round_binary64 (3 # 10) <= confidence ui)%Q /\
  (confidence ui <= 1)%Q /\
  forall c image out,
    In (EvPredict c image out) (trace_of (app cfg env ui p)) ->
    c = float_div (py_float (slider ui)) (py_float 100).
Proof.
  intros Hr. pose proof (confidence_checked_in_range (slider ui) Hr) as Hc.
  unfold confidence_checked in Hc.
  apply andb_prop in Hc as [Hc H4]. apply andb_prop in Hc as [Hc H3].
  apply andb_prop in Hc as [H1 H2].
  apply Qeq_bool_iff in H1. apply Qle_bool_iff in H2.
  apply Qle_bool_iff in H3. apply Qle_bool_iff in H4.
  unfold confidence. repeat split; try assumption.
  intros c image out Hin.
  assert (Hall : all_events (sound_event (confidence ui) (fun _ => True))
                   (app cfg env ui)).
  { apply app_sound. intros. apply List.Forall_forall. intros; exact I. }
  specialize (Hall p). rewrite List.Forall_forall in Hall.
  destruct (Hall _ Hin) as [E _]. exact E.
Qed.

Lemma confidence_is_nearest_double_witness :
  (confidence base_inputs == 1 # 2)%Q /\
  forall c image out,
    In (EvPredict c image out)
       (trace_of (app sample_config stub_env
                    (with_video base_inputs ten_frame_video true)
                    fresh_process)) ->
    c = float_div (py_float 50) (py_float 100).
Proof.
  pose proof (confidence_is_nearest_double sample_config stub_env
                (with_video base_inputs ten_frame_video true) fresh_process)
    as H.
  assert (Hr : slider_in_range (with_video base_inputs ten_frame_video true)).
  { unfold slider_in_range, slider_min, slider_max. simpl. lia. }
  destruct (H Hr) as (_ & _ & _ & _ & Hc).
  split; [vm_compute; reflexivity | exact Hc].
Defined.

(** C9 (as stated, refuted): at the lower bound of the slider the
    threshold handed to the model is the double nearest to 0.3, which is
    not 30/100 and lies below 3/10. *)
Lemma confidence_at_30_is_not_three_tenths :
  let ui := with_slider (with_video base_inputs one_frame_video true) 30 in
  slider_in_range ui /\
  exists c image out,
    In (EvPredict c image out)
       (trace_of (app sample_config stub_env ui fresh_process)) /\
    (c == 5404319552844595 # 18014398509481984)%Q /\
    ~ (c == 30 # 100)%Q /\
    ~ (3 # 10 <= c)%Q.
Proof.
  split.
  - unfold slider_in_range, slider_min, slider_max. simpl. lia.
  - exists (confidence_of 30).
    exists {| fwidth := 720; fheight := 405; fchannels := BGR; fcontent := 0 |}.
    exists (Ret {| boxes := [];
                   plot := {| fwidth := 720; fheight := 405;
                              fchannels := BGR; fcontent := 0 |} |}).
    split; [|split; [|split]].
    + vm_compute. do 6 right. left. reflexivity.
    + vm_compute. reflexivity.
    + intros H. vm_compute in H. discriminate H.
    + intros H. vm_compute in H. apply H. reflexivity.
Qed.

(** ** Who filters the boxes *)













(** C1 (as stated, refuted): a video whose decoder opened with ten
    decodable frames, start pressed, and a model that raises on its
    input: the first inference call ends the loop through the except
    clause, so the run makes one inference call, no slot update, one
    error report, and does not end EXHAUSTED. *)
Lemma ten_frames_one_inference :
  let run :=
    infer_uploaded_video raising_env
      (with_video base_inputs ten_frame_video true) (1 # 2)
      sample_model fresh_process in
  cap_opened (decoder ten_frame_video) = true /\
  length (cap_frames (decoder ten_frame_video)) = 10 /\
  count is_predict (trace_of run) = 1 /\
  count is_slot_image (trace_of run) = 0 /\
  count is_error (trace_of run) = 1 /\
  result_of run = Ret ExitExcept /\
  ~ (count is_predict (trace_of run) = 10 /\
     count is_error (trace_of run) = 0 /\
     result_of run = Ret ExitBreak).
Proof.
  vm_compute. repeat split. intros (H & _). discriminate H.
Qed.

Lemma image_open_failure_escapes_witness :
  infer_uploaded_image stub_env
    (with_image base_inputs broken_image true) (1 # 2)
    sample_model fresh_process
  = ([], fresh_process, Raise (OSError "cannot identify image file")).
Proof.
  apply (image_open_failure_escapes stub_env
           (with_image base_inputs broken_image true) (1 # 2)
           sample_model broken_image
           (OSError "cannot identify image file") fresh_process).
  - reflexivity.
  - reflexivity.
Defined.
